(** * Bristol-671 driver: response parsing, status registers, error-queue drain

    A shallow embedding of the pure layer of the [bristol_671] package
    ([registers.py], [conversion_handling.py]) and of
    [Bristol671.drain_error_queue] ([module.py]), with the properties the
    specification states about them.

    Conventions of the embedding.
    - A Python [int] is a [Z]; [>>], [<<], [&], [|], [~] are [Z.shiftr],
      [Z.shiftl], [Z.land], [Z.lor], [Z.lnot] (both sides use the infinite
      two's-complement reading of negative numbers).  A negative shift count
      raises [ValueError] in Python and is written out as such.
    - A Python [str] is a [string] whose characters are code points below 256.
    - A Python [float] is an IEEE binary64 value, a [spec_float]; reading a
      decimal literal rounds it to the nearest such value, ties to even.  The
      two power conversions call the platform's [pow] and [log10] on such
      values and are not part of the embedding.
    - [int(s)] refuses a literal of more than 4300 digits, the interpreter's
      default limit; [str(n)] is written for integers within that limit.
    - A call that may raise returns a [result]; the exception carries its
      class and its message. *)

From Stdlib Require Import ZArith Lia Bool List String Ascii DecimalString.
From Stdlib Require Import Sorted DecimalPos.
From Stdlib Require Import Floats.SpecFloat.
Import ListNotations.

Open Scope string_scope.
Open Scope Z_scope.

(** ** Exceptions and results *)

Inductive exn : Type :=
| AssertionError
| AttributeError (msg : string)
| IndexError (msg : string)
| ValueError (msg : string)
| TypeError (msg : string)
| StopIteration
| BristolParseError (msg : string)   (* subclass of ValueError *)
| SCPICommandError (msg : string).

Inductive result (A : Type) : Type :=
| Ok (a : A)
| Raise (e : exn).

Arguments Ok {A} a.
Arguments Raise {A} e.

Definition bind {A B : Type} (m : result A) (k : A -> result B) : result B :=
  match m with
  | Ok a => k a
  | Raise e => Raise e
  end.

Notation "'let*' x ':=' m 'in' k" := (bind m (fun x => k))
  (at level 10, x pattern, m at level 100, k at level 200).

(** A list comprehension whose body may raise: the elements are evaluated from
    left to right and the first exception ends the comprehension. *)
Fixpoint comprehension {A B : Type} (f : A -> result B) (l : list A)
  : result (list B) :=
  match l with
  | [] => Ok []
  | a :: l' =>
      let* b := f a in
      let* bs := comprehension f l' in
      Ok (b :: bs)
  end.

(** [str(n)] for an [int] of at most 4300 digits; the interpreter refuses to
    print a longer one. *)
Definition str_of_int (n : Z) : string := NilZero.string_of_int (Z.to_int n).

(** [range(n)]: the integers [0 .. n-1], empty when [n <= 0]. *)
Definition range (n : Z) : list Z := map Z.of_nat (seq 0 (Z.to_nat n)).

(** [a >> n] and [a << n]. *)
Definition py_shiftr (a n : Z) : result Z :=
  if n <? 0 then Raise (ValueError "negative shift count") else Ok (Z.shiftr a n).

Definition py_shiftl (a n : Z) : result Z :=
  if n <? 0 then Raise (ValueError "negative shift count") else Ok (Z.shiftl a n).

(** ** registers.py *)

Module Registers.

(** A member of an [Enum] class, and the class with its members in definition
    order. *)
Record member : Type := Member { name : string; value : Z }.

Record enum_class : Type := EnumClass { qualname : string; members : list member }.

(** [cls(v)]: look a member up by value. *)
Definition enum_lookup (cls : enum_class) (v : Z) : result member :=
  match find (fun m => value m =? v) (members cls) with
  | Some m => Ok m
  | None =>
      Raise (ValueError (str_of_int v ++ " is not a valid " ++ qualname cls))
  end.

Definition EventStatusEnableBits : enum_class :=
  EnumClass "EventStatusEnableBits"
    [ Member "POWER_ON" 7; Member "COMMAND_ERROR" 5; Member "EXECUTION_ERROR" 4;
      Member "DEVICE_DEPENDENT_ERROR" 3; Member "QUERY_ERROR" 2;
      Member "OPERATION_COMPLETE" 0 ].

Definition EventStatusBits : enum_class :=
  EnumClass "EventStatusBits"
    [ Member "POWER_ON" 7; Member "COMMAND_ERROR" 5; Member "EXECUTION_ERROR" 4;
      Member "DEVICE_DEPENDENT_ERROR" 3; Member "QUERY_ERROR" 2;
      Member "OPERATION_COMPLETE" 0 ].

Definition InstrumentStatusBits : enum_class :=
  EnumClass "InstrumentStatusBits"
    [ Member "BIT_SET_QUESTIONABLE_REGISTER" 5; Member "ERRORS_IN_ERROR_QUEUE" 3;
      Member "BIT_SET_EVENT_STATUS_REGISTER" 2 ].

Definition QuestionableStatusBits : enum_class :=
  EnumClass "QuestionableStatusBits"
    [ Member "WAVELENGTH_ALREADY_READ" 0; Member "POWER_OUT_OF_RANGE" 3;
      Member "TEMPERATURE_OUT_OF_RANGE" 4; Member "WAVELENGTH_OUT_OF_RANGE" 5;
      Member "PRESSURE_OUT_OF_RANGE" 9; Member "REFERENCE_LASER_NOT_STABILIZED" 10 ].

(** The objects that reach [get_value]: the method is written for an [Enum]
    member, the elements of [fault_bits] are plain integers. *)
Inductive pyobj : Type :=
| PyInt (n : Z)
| PyMember (m : member).

(** [obj.value] *)
Definition no_value_attribute : exn :=
  AttributeError "'int' object has no attribute 'value'".

Definition attr_value (o : pyobj) : result Z :=
  match o with
  | PyMember m => Ok (value m)
  | PyInt _ => Raise no_value_attribute
  end.

(** The instance attributes of [Bits]. *)
Record Bits : Type := mkBits {
  bits_value : Z;
  bits_enum : enum_class;
  bits_size : Z;
  fault_bits : option (list pyobj)
}.

(** [self.value >> i & 1] *)
Definition bit_at (v i : Z) : result Z :=
  let* s := py_shiftr v i in Ok (Z.land s 1).

(** [tuple([i for i in range(self.size) if (self.value >> i & 1)])] *)
Definition get_set_bits (self : Bits) : list Z :=
  filter (fun i => negb (Z.land (Z.shiftr (bits_value self) i) 1 =? 0))
         (range (bits_size self)).

(** [set_bit]: the object after the call. *)
Definition set_bit (self : Bits) (bit bit_value : Z) : result Bits :=
  if negb ((bit_value =? 0) || (bit_value =? 1)) then Raise AssertionError else
  let value := if negb (bits_value self =? 0) then bits_value self else 0 in
  let* value :=
    if negb (bit_value =? 0)
    then let* m := py_shiftl 1 bit in Ok (Z.lor value m)
    else let* m := py_shiftl 1 bit in Ok (Z.land value (Z.lnot m)) in
  Ok (mkBits value (bits_enum self) (bits_size self) (fault_bits self)).

Definition get_bit (self : Bits) (bit : Z) : result Z :=
  bit_at (bits_value self) bit.

(** [set_value(enum, val)] and [get_value(enum)] *)
Definition set_value (self : Bits) (enum : pyobj) (val : Z) : result Bits :=
  let* b := attr_value enum in set_bit self b val.

Definition get_value (self : Bits) (enum : pyobj) : result Z :=
  let* b := attr_value enum in get_bit self b.

(** [tuple([self.enum(bit).name for bit in self.get_set_bits()])] *)
Definition get_set_values (self : Bits) : result (list string) :=
  comprehension
    (fun bit => let* m := enum_lookup (bits_enum self) bit in Ok (name m))
    (get_set_bits self).

(** The [faults] property. *)
Definition faults (self : Bits) : result (list Z) :=
  match fault_bits self with
  | None => Ok []
  | Some fbs => comprehension (fun fault_bit => get_value self fault_bit) fbs
  end.

(** The [is_ok] property: [len(self.faults) == 0]. *)
Definition is_ok (self : Bits) : result bool :=
  let* fs := faults self in Ok (Nat.eqb (List.length fs) 0).

Definition EventStatusEnableRegister (value : Z) : Bits :=
  mkBits value EventStatusEnableBits 8 (Some [PyInt 5; PyInt 4; PyInt 3; PyInt 2]).

Definition EventStatusRegister (value : Z) : Bits :=
  mkBits value EventStatusBits 8 (Some [PyInt 5; PyInt 4; PyInt 3; PyInt 2]).

Definition InstrumentStatusByte (value : Z) : Bits :=
  mkBits value InstrumentStatusBits 6 (Some [PyInt 3]).

Definition QuestionableStatusRegister (value : Z) : Bits :=
  mkBits value QuestionableStatusBits 11
    (Some [PyInt 0; PyInt 3; PyInt 4; PyInt 5; PyInt 9; PyInt 10]).

(** What the specification asks of [faults]: the set bits that are fault bits. *)
Definition spec_faults (self : Bits) (fbs : list Z) : list Z :=
  filter (fun i => existsb (Z.eqb i) fbs) (get_set_bits self).

End Registers.

(** ** Python string primitives *)

Module PyStr.

Definition code (c : ascii) : N := N_of_ascii c.

(** The double quote character, and a text between double quotes. *)
Definition dquote : ascii := ascii_of_N 34.

Definition quoted (s : string) : string := String dquote (s ++ String dquote "").

Definition between (lo hi : N) (c : ascii) : bool :=
  ((lo <=? code c) && (code c <=? hi))%N.

(** [str.isspace] on one code point below 256: TAB, LF, VT, FF, CR, the four
    separators FS, GS, RS, US, the space, NEL and the no-break space.  This is
    the set that [strip()] removes and at which [split()] cuts. *)
Definition is_space (c : ascii) : bool :=
  between 9 13 c || between 28 31 c || (code c =? 32)%N
  || (code c =? 133)%N || (code c =? 160)%N.

Definition is_digit (c : ascii) : bool := between 48 57 c.

Definition digit_val (c : ascii) : Z := Z.of_N (code c) - 48.

Fixpoint mem_char (c : ascii) (chars : string) : bool :=
  match chars with
  | "" => false
  | String d chars' => Ascii.eqb c d || mem_char c chars'
  end.

Fixpoint lstrip_by (p : ascii -> bool) (s : string) : string :=
  match s with
  | "" => ""
  | String c s' => if p c then lstrip_by p s' else s
  end.

Fixpoint rstrip_by (p : ascii -> bool) (s : string) : string :=
  match s with
  | "" => ""
  | String c s' =>
      match rstrip_by p s' with
      | "" => if p c then "" else String c ""
      | r => String c r
      end
  end.

(** [s.strip()] and [s.strip(chars)] *)
Definition strip (s : string) : string := rstrip_by is_space (lstrip_by is_space s).

Definition strip_chars (chars s : string) : string :=
  rstrip_by (fun c => mem_char c chars) (lstrip_by (fun c => mem_char c chars) s).

(** [s.split(sep)] for a one-character separator: never empty. *)
Fixpoint split_sep (sep : ascii) (s : string) : list string :=
  match s with
  | "" => [""]
  | String c s' =>
      if Ascii.eqb c sep then "" :: split_sep sep s'
      else match split_sep sep s' with
           | h :: r => String c h :: r
           | [] => [String c ""]
           end
  end.

(** [s.partition(sep)] for a one-character separator. *)
Fixpoint partition (sep : ascii) (s : string) : string * string * string :=
  match s with
  | "" => ("", "", "")
  | String c s' =>
      if Ascii.eqb c sep then ("", String sep "", s')
      else match partition sep s' with
           | (h, "", _) => (s, "", "")
           | (h, m, t) => (String c h, m, t)
           end
  end.

(** [s.split()]: the maximal runs of characters that are not white space. *)
Fixpoint split_ws (s : string) : list string :=
  match s with
  | "" => []
  | String c s' =>
      if is_space c then split_ws s'
      else match s' with
           | "" => [String c ""]
           | String d _ =>
               if is_space d then String c "" :: split_ws s'
               else match split_ws s' with
                    | h :: r => String c h :: r
                    | [] => [String c ""]
                    end
           end
  end.

(** [l[0]] *)
Definition index0 {A : Type} (l : list A) : result A :=
  match l with
  | a :: _ => Ok a
  | [] => Raise (IndexError "list index out of range")
  end.

(** [sep.join(l)] *)
Fixpoint join (sep : string) (l : list string) : string :=
  match l with
  | [] => ""
  | [a] => a
  | a :: l' => a ++ sep ++ join sep l'
  end.

(** [needle in s] *)
Fixpoint contains (needle s : string) : bool :=
  String.prefix needle s
  || match s with
     | "" => false
     | String _ s' => contains needle s'
     end.

(** Notions used to state what the functions above do. *)
Fixpoint all_chars (p : ascii -> bool) (s : string) : bool :=
  match s with
  | "" => true
  | String c s' => p c && all_chars p s'
  end.

Fixpoint last_char (s : string) : option ascii :=
  match s with
  | "" => None
  | String c "" => Some c
  | String _ s' => last_char s'
  end.

(** [trimmed p s]: [s] neither starts nor ends with a character of [p]. *)
Definition trimmed (p : ascii -> bool) (s : string) : bool :=
  match s with
  | "" => true
  | String c _ =>
      negb (p c) && match last_char s with Some d => negb (p d) | None => true end
  end.

Definition all_space (s : string) : bool := all_chars is_space s.

Definition is_quote (c : ascii) : bool := mem_char c (String dquote "").

(** A token, as [split()] yields them: not empty, no white space inside. *)
Definition is_token (s : string) : bool :=
  negb (String.eqb s "") && all_chars (fun c => negb (is_space c)) s.

(** The number of occurrences of a character. *)
Fixpoint count_char (c : ascii) (s : string) : nat :=
  match s with
  | "" => O
  | String d s' => if Ascii.eqb d c then S (count_char c s') else count_char c s'
  end.

(** [s.split(sep, 1)] for a one-character separator: at most one cut. *)
Definition split_sep1 (sep : ascii) (s : string) : list string :=
  match partition sep s with
  | (h, "", _) => [h]
  | (h, _, t) => [h; t]
  end.

(** [l[i]] for an index [i >= 0] *)
Definition item {A : Type} (l : list A) (i : nat) : result A :=
  match nth_error l i with
  | Some a => Ok a
  | None => Raise (IndexError "list index out of range")
  end.

(** *** [repr] of a string *)

Definition hex_digit (n : N) : ascii :=
  if (n <? 10)%N then ascii_of_N (48 + n) else ascii_of_N (87 + n).

Definition hex_escape (c : ascii) : string :=
  String "\" (String "x" (String (hex_digit (code c / 16))
                                 (String (hex_digit (code c mod 16)) ""))).

(** Printable code points below 256: the ASCII graphic characters and space,
    and U+00A1..U+00FF without the soft hyphen U+00AD. *)
Definition is_printable (c : ascii) : bool :=
  between 32 126 c || (between 161 255 c && negb (code c =? 173)%N).

Definition repr_char (quote c : ascii) : string :=
  if Ascii.eqb c quote || Ascii.eqb c "\" then String "\" (String c "")
  else if (code c =? 9)%N then "\t"
  else if (code c =? 10)%N then "\n"
  else if (code c =? 13)%N then "\r"
  else if is_printable c then String c ""
  else hex_escape c.

Fixpoint repr_body (quote : ascii) (s : string) : string :=
  match s with
  | "" => ""
  | String c s' => repr_char quote c ++ repr_body quote s'
  end.

(** Single quotes, unless the string has a single quote and no double quote. *)
Definition repr (s : string) : string :=
  let quote : ascii :=
    if mem_char "'" s && negb (mem_char dquote s) then dquote else "'"%char in
  String quote (repr_body quote s) ++ String quote "".

(** *** [int(s)] *)

(** Decimal digits with single underscores between them; [seen] tells whether
    the previous character was a digit. *)
Fixpoint int_digits (acc : Z) (seen : bool) (s : string) : option Z :=
  match s with
  | "" => if seen then Some acc else None
  | String c s' =>
      if is_digit c then int_digits (10 * acc + digit_val c) true s'
      else if Ascii.eqb c "_" && seen then int_digits acc false s'
      else None
  end.

(** An optional sign: whether it is a minus, and what follows it. *)
Definition split_sign (s : string) : bool * string :=
  match s with
  | String c s' =>
      if Ascii.eqb c "+" then (false, s')
      else if Ascii.eqb c "-" then (true, s')
      else (false, s)
  | "" => (false, s)
  end.

Definition int_literal (s : string) : option Z :=
  let '(neg, ds) := split_sign s in
  option_map (fun n => if neg then - n else n) (int_digits 0 false ds).

(** The white space that [int()] and [float()] skip around a literal: the
    ASCII blanks TAB..CR and space, and the two other white-space code points
    below 256.  Unlike [strip()], they do not skip FS, GS, RS and US. *)
Definition is_blank (c : ascii) : bool :=
  between 9 13 c || (code c =? 32)%N || (code c =? 133)%N || (code c =? 160)%N.

Definition strip_blank (s : string) : string :=
  rstrip_by is_blank (lstrip_by is_blank s).

(** The digits and underscores that a literal starts with. *)
Fixpoint digit_run (s : string) : string :=
  match s with
  | String c s' =>
      if is_digit c || Ascii.eqb c "_" then String c (digit_run s') else ""
  | "" => ""
  end.

Fixpoint count_digits (s : string) : Z :=
  match s with
  | String c s' => (if is_digit c then 1 else 0) + count_digits s'
  | "" => 0
  end.

(** [sys.int_info.default_max_str_digits] *)
Definition int_max_str_digits : Z := 4300.

(** [int(s)] in base 10.  After the blanks and the sign the interpreter scans
    the digits and underscores; a misplaced underscore is an invalid literal;
    then a run of more than [int_max_str_digits] digits is refused, before
    what follows the run is looked at.  The message of an invalid literal
    holds at most 200 characters of the argument's [repr]. *)
Definition py_int (s : string) : result Z :=
  let invalid :=
    Raise (ValueError ("invalid literal for int() with base 10: "
                       ++ substring 0 200 (repr s))) in
  let run := digit_run (snd (split_sign (lstrip_by is_blank s))) in
  match int_digits 0 false run with
  | None => invalid
  | Some _ =>
      if int_max_str_digits <? count_digits run then
        Raise (ValueError
                 ("Exceeds the limit (" ++ str_of_int int_max_str_digits
                  ++ " digits) for integer string conversion: value has "
                  ++ str_of_int (count_digits run)
                  ++ " digits; use sys.set_int_max_str_digits() to increase the limit"))
      else
        match int_literal (strip_blank s) with
        | Some n => Ok n
        | None => invalid
        end
  end.

(** *** [float(s)] *)

Definition prec : Z := 53.
Definition emax : Z := 1024.

(** The binary64 value nearest to [(-1)^neg * m * 10^e], ties to even; it
    overflows to an infinity and underflows to a zero. *)
Definition of_decimal (neg : bool) (m e : Z) : spec_float :=
  if m =? 0 then S754_zero neg
  else if 0 <=? e then binary_round prec emax neg (Z.to_pos (m * 10 ^ e)) 0
  else SFdiv prec emax (S754_finite neg (Z.to_pos m) 0)
                       (S754_finite false (Z.to_pos (10 ^ (- e))) 0).

(** Underscores may only stand between two digits; [prev] is the previous
    character, if any. *)
Fixpoint underscores_ok (prev : option ascii) (s : string) : bool :=
  match s with
  | "" => match prev with
          | Some p => negb (Ascii.eqb p "_")
          | None => true
          end
  | String c s' =>
      let prev_digit := match prev with Some p => is_digit p | None => false end in
      let prev_under := match prev with Some p => Ascii.eqb p "_" | None => false end in
      (if Ascii.eqb c "_" then prev_digit else negb (prev_under && negb (is_digit c)))
      && underscores_ok (Some c) s'
  end.

Fixpoint remove_underscores (s : string) : string :=
  match s with
  | "" => ""
  | String c s' =>
      if Ascii.eqb c "_" then remove_underscores s' else String c (remove_underscores s')
  end.

(** The longest prefix of digits: its value, its length, and what follows. *)
Fixpoint span_digits (acc len : Z) (s : string) : Z * Z * string :=
  match s with
  | String c s' =>
      if is_digit c then span_digits (10 * acc + digit_val c) (len + 1) s'
      else (acc, len, s)
  | "" => (acc, len, s)
  end.

(** [e] or [E], an optional sign and at least one digit, up to the end. *)
Definition exponent_part (s : string) : option Z :=
  match s with
  | "" => Some 0
  | String c s' =>
      if Ascii.eqb c "e" || Ascii.eqb c "E" then
        let '(neg, ds) := split_sign s' in
        match span_digits 0 0 ds with
        | (v, len, "") => if 0 <? len then Some (if neg then - v else v) else None
        | _ => None
        end
      else None
  end.

(** [digits [. [digits]] [exponent]] or [. digits [exponent]], without sign:
    the mantissa as an integer and the power of ten that scales it. *)
Definition decimal_literal (s : string) : option (Z * Z) :=
  let '(ip, ilen, r) := span_digits 0 0 s in
  let '(m, flen, r) :=
    match r with
    | String c r' => if Ascii.eqb c "." then span_digits ip 0 r' else (ip, 0, r)
    | "" => (ip, 0, r)
    end in
  if 0 <? ilen + flen then
    match exponent_part r with
    | Some x => Some (m, x - flen)
    | None => None
    end
  else None.

Definition lower (c : ascii) : ascii :=
  if between 65 90 c then ascii_of_N (code c + 32) else c.

Fixpoint lowercase (s : string) : string :=
  match s with
  | "" => ""
  | String c s' => String (lower c) (lowercase s')
  end.

(** [inf], [infinity] and [nan], in any case. *)
Definition inf_or_nan (neg : bool) (s : string) : option spec_float :=
  let l := lowercase s in
  if String.eqb l "inf" || String.eqb l "infinity" then Some (S754_infinity neg)
  else if String.eqb l "nan" then Some S754_nan
  else None.

Definition float_literal (s : string) : option spec_float :=
  if underscores_ok None s then
    let '(neg, body) := split_sign (remove_underscores s) in
    match decimal_literal body with
    | Some (m, e) => Some (of_decimal neg m e)
    | None => inf_or_nan neg body
    end
  else None.

(** A character that ends no float literal: not a digit, a point, an
    underscore, a sign or an exponent mark, and not the last letter of [inf],
    [infinity] or [nan]. *)
Definition ends_no_float (c : ascii) : bool :=
  negb (is_digit c || Ascii.eqb c "." || Ascii.eqb c "_"
        || Ascii.eqb c "+" || Ascii.eqb c "-"
        || Ascii.eqb (lower c) "f" || Ascii.eqb (lower c) "y"
        || Ascii.eqb (lower c) "n" || Ascii.eqb (lower c) "e").

(** [float(s)] *)
Definition py_float (s : string) : result spec_float :=
  match float_literal (strip_blank s) with
  | Some x => Ok x
  | None => Raise (ValueError ("could not convert string to float: " ++ repr s))
  end.

End PyStr.

(** ** error_codes.py *)

Module ErrorCodes.

(** Modelled from the spec: [bristol_671/error_codes.py] is not among the
    sources.  The members and values are those of the specification's error
    taxonomy; the older package's [bristol671/error_codes.py] lists the same. *)
Inductive SCPIErrors : Type :=
| NO_ERROR
| INVALID_CHARACTER
| SYNTAX_ERROR
| INVALID_SEPARATOR
| DATA_TYPE_ERROR
| PARAMETER_ERROR
| SETTINGS_CONFLICT
| DATA_OUT_OF_RANGE
| DATA_CORRUPT_OR_STALE.

Definition all_errors : list SCPIErrors :=
  [ NO_ERROR; INVALID_CHARACTER; SYNTAX_ERROR; INVALID_SEPARATOR; DATA_TYPE_ERROR;
    PARAMETER_ERROR; SETTINGS_CONFLICT; DATA_OUT_OF_RANGE; DATA_CORRUPT_OR_STALE ].

(** [err.value] *)
Definition error_value (e : SCPIErrors) : Z :=
  match e with
  | NO_ERROR => 0
  | INVALID_CHARACTER => -101
  | SYNTAX_ERROR => -102
  | INVALID_SEPARATOR => -103
  | DATA_TYPE_ERROR => -104
  | PARAMETER_ERROR => -220
  | SETTINGS_CONFLICT => -221
  | DATA_OUT_OF_RANGE => -222
  | DATA_CORRUPT_OR_STALE => -230
  end.

(** [SCPIErrors(code)] *)
Definition SCPIErrors_of (code : Z) : result SCPIErrors :=
  match find (fun e => error_value e =? code) all_errors with
  | Some e => Ok e
  | None => Raise (ValueError (str_of_int code ++ " is not a valid SCPIErrors"))
  end.

(** [a == b] on members. *)
Definition error_eqb (a b : SCPIErrors) : bool := error_value a =? error_value b.

End ErrorCodes.

(** ** conversion_handling.py: the text parsers *)

Module Conversion.

Import PyStr ErrorCodes.

(** [parse_system_error] *)
Definition parse_system_error (val : string) : result (Z * string) :=
  let '(error_code, separator, message) := partition "," val in
  match separator with
  | "" =>
      Raise (BristolParseError
               ("Invalid SYSTEM:ERROR response format (missing comma): " ++ repr val))
  | _ =>
      match py_int (strip error_code) with
      | Ok code => Ok (code, strip_chars (String dquote "") (strip message))
      | Raise (ValueError _) | Raise (BristolParseError _) =>
          Raise (BristolParseError
                   ("Invalid SYSTEM:ERROR code in response: " ++ repr val))
      | Raise e => Raise e
      end
  end.

(** [convert_average_state]; the message of the [ValueError] is a plain string
    literal in the source. *)
Definition convert_average_state (val : string) : result bool :=
  if String.eqb val "ON" then Ok true
  else if String.eqb val "OFF" then Ok false
  else Raise (ValueError "State not 'On' or 'Off' but '{val}'").

(** [validate_response] *)
Definition validate_response (value : string) (expected_parts : Z) (context : string)
  : result (list string) :=
  let parts := map strip (split_sep "," value) in
  if negb (Z.of_nat (List.length parts) =? expected_parts) then
    Raise (BristolParseError
             ("Invalid " ++ context ++ " response format: " ++ repr value
              ++ "; expected " ++ str_of_int expected_parts
              ++ " comma-separated values"))
  else Ok parts.

Record Environment : Type := mkEnvironment {
  temperature : spec_float;
  pressure : spec_float
}.

(** [convert_environment_to_environment_data] *)
Definition convert_environment_to_environment_data (val : string)
  : result Environment :=
  let body :=
    let* parts := validate_response val 2 "ENVIRONMENT" in
    match parts with
    | [temperature_part; pressure_part] =>
        let* t := index0 (split_ws temperature_part) in
        let* temperature := py_float t in
        let* p := index0 (split_ws pressure_part) in
        let* pressure := py_float p in
        Ok (mkEnvironment temperature pressure)
    | _ => Raise (ValueError "wrong number of values to unpack")
    end in
  match body with
  | Ok env => Ok env
  | Raise (IndexError _) | Raise (ValueError _) | Raise (BristolParseError _) =>
      Raise (BristolParseError ("Invalid environment response format: " ++ repr val))
  | Raise e => Raise e
  end.

(** [to_float] and [to_int] *)
Definition to_float (val : string) : result spec_float := py_float val.

Definition to_int (val : string) : result Z := py_int val.

Record WavemeterData : Type := mkWavemeterData {
  scan_index : Z;
  instrument_status : Z;
  wavelength : spec_float;
  power : spec_float
}.

(** [convert_all_to_bristol_data] *)
Definition convert_all_to_bristol_data (val : string) : result WavemeterData :=
  let body :=
    let* values := validate_response val 4 "ALL" in
    let* v0 := item values 0 in
    let* scan_index := py_int v0 in
    let* v1 := item values 1 in
    let* instrument_status := py_int v1 in
    let* v2 := item values 2 in
    let* wavelength := py_float v2 in
    let* v3 := item values 3 in
    let* power := py_float v3 in
    Ok (mkWavemeterData scan_index instrument_status wavelength power) in
  match body with
  | Ok data => Ok data
  | Raise (IndexError _) | Raise (ValueError _) | Raise (BristolParseError _) =>
      Raise (BristolParseError ("Invalid ALL response format: " ++ repr val))
  | Raise e => Raise e
  end.

(** [convert_system_error] *)
Definition convert_system_error (val : string) : result SCPIErrors :=
  let body :=
    let* head := item (split_sep1 "," val) 0 in
    let* error_number := py_int (strip head) in
    SCPIErrors_of error_number in
  match body with
  | Ok error => Ok error
  | Raise (ValueError _) | Raise (BristolParseError _) | Raise (TypeError _) =>
      Raise (BristolParseError ("Invalid SYSTEM:ERROR response: " ++ repr val))
  | Raise e => Raise e
  end.

End Conversion.

(** ** registers.py: the text of a register *)

Module RegistersRepr.

Import PyStr Registers.

(** [Bits.__repr__]; the class name of the enumeration is its [qualname]. *)
Definition Bits_repr (self : Bits) : result string :=
  let name := strip_chars "Bits" (qualname (bits_enum self)) in
  let* set_values := get_set_values self in
  let repr :=
    fold_left (fun repr val => repr ++ val ++ ", ") set_values (name ++ "Register(") in
  Ok (strip_chars ", " repr ++ ")").

End RegistersRepr.

(** ** The older package [bristol671]: its environment parser *)

Module Legacy.

Import PyStr Conversion.

(** [bristol671.conversion_handling.convert_environment_to_environment_data]:
    the unit letters are stripped from both ends of each field, nothing is
    caught. *)
Definition convert_environment_to_environment_data (val : string)
  : result Environment :=
  match split_sep "," val with
  | [] => Raise (IndexError "list index out of range")
  | v0 :: rest =>
      let* t := py_float (strip_chars "C" v0) in
      match rest with
      | [] => Raise (IndexError "list index out of range")
      | v1 :: rest' =>
          let* p := py_float (strip_chars "MMHG" v1) in
          match rest' with
          | [] => Ok (mkEnvironment t p)
          | _ :: _ =>
              Raise (TypeError
                       ("Environment.__init__() takes 3 positional arguments but "
                        ++ str_of_int (Z.of_nat (List.length (split_sep "," val)) + 1)
                        ++ " were given"))
          end
      end
  end.

(** The values that the older [convert_all_to_bristol_data] collects. *)
Inductive number : Type :=
| NInt (n : Z)
| NFloat (x : spec_float).

Definition as_int (val : string) : result number :=
  let* n := py_int val in Ok (NInt n).

Definition as_float (val : string) : result number :=
  let* x := py_float val in Ok (NFloat x).

(** The fields of the record, which take whatever they are given. *)
Record RawWavemeterData : Type := mkRawWavemeterData {
  raw_scan_index : number;
  raw_instrument_status : number;
  raw_wavelength : number;
  raw_power : number
}.

(** [bristol671.conversion_handling.convert_all_to_bristol_data]: [zip] stops
    at the shorter of the four converters and the fields. *)
Definition convert_all_to_bristol_data (val : string) : result RawWavemeterData :=
  let values := split_sep "," val in
  let* values :=
    comprehension (fun '(t, val) => t val)
                  (combine [as_int; as_int; as_float; as_float] values) in
  match values with
  | [a; b; c; d] => Ok (mkRawWavemeterData a b c d)
  | [a; b; c] =>
      Raise (TypeError
               "WavemeterData.__init__() missing 1 required positional argument: 'power'")
  | [a; b] =>
      Raise (TypeError
               "WavemeterData.__init__() missing 2 required positional arguments: 'wavelength' and 'power'")
  | [a] =>
      Raise (TypeError
               "WavemeterData.__init__() missing 3 required positional arguments: 'instrument_status', 'wavelength', and 'power'")
  | _ =>
      Raise (TypeError
               "WavemeterData.__init__() missing 4 required positional arguments: 'scan_index', 'instrument_status', 'wavelength', and 'power'")
  end.

End Legacy.

(** ** module.py: draining the error queue *)

Module Drain.

Import PyStr ErrorCodes Conversion.

Definition entry : Type := SCPIErrors * string.

(** One turn of the [for] loop, after the query returned [raw]. *)
Definition read_entry (raw : string) : result entry :=
  let* (code, message) := parse_system_error raw in
  match SCPIErrors_of code with
  | Ok error => Ok (error, message)
  | Raise (ValueError _) | Raise (BristolParseError _) =>
      Raise (SCPICommandError ("Unknown SCPI error code: " ++ str_of_int code))
  | Raise e => Raise e
  end.

(** [f"{err.value}: {msg}"] *)
Definition show_entry (e : entry) : string :=
  str_of_int (error_value (fst e)) ++ ": " ++ snd e.

Section WithInstrument.

(** The instrument behind [self.system.error()]: each call returns a line or
    raises, and moves the instrument to a new state. *)
Variable St : Type.
Variable system_error : St -> result string * St.

(** How a [for ... else] loop was left. *)
Inductive loop_end : Type :=
| Break (entries : list entry)
| Exhausted (entries : list entry).

(** The [for _ in range(max_reads)] loop with [n] turns left. *)
Fixpoint drain_loop (n : nat) (entries : list entry) (s : St)
  : result loop_end * St :=
  match n with
  | O => (Ok (Exhausted entries), s)
  | S n' =>
      let '(r, s1) := system_error s in
      match (let* raw := r in read_entry raw) with
      | Raise e => (Raise e, s1)
      | Ok (error, message) =>
          let entries := (entries ++ [(error, message)])%list in
          if error_eqb error NO_ERROR then (Ok (Break entries), s1)
          else drain_loop n' entries s1
      end
  end.

Definition drain_error_queue (raise_on_error : bool) (max_reads : Z) (s : St)
  : result (list entry) * St :=
  if max_reads <=? 0 then (Raise (ValueError "max_reads must be > 0"), s) else
  match drain_loop (Z.to_nat max_reads) [] s with
  | (Raise e, s') => (Raise e, s')
  | (Ok (Exhausted _), s') =>
      (Raise (SCPICommandError
                ("SYSTEM:ERROR queue did not terminate with NO_ERROR within "
                 ++ str_of_int max_reads ++ " reads")), s')
  | (Ok (Break entries), s') =>
      if raise_on_error then
        let active_errors :=
          filter (fun e => negb (error_eqb (fst e) NO_ERROR)) entries in
        match active_errors with
        | [] => (Ok entries, s')
        | _ :: _ =>
            let details := join "; " (map show_entry active_errors) in
            (Raise (SCPICommandError
                      ("SCPI error queue contains active errors: " ++ details)), s')
        end
      else (Ok entries, s')
  end.

(** [reads s raws s']: from [s], successive queries return the lines [raws]
    without raising and leave the instrument in [s']. *)
Inductive reads : St -> list string -> St -> Prop :=
| reads_nil s : reads s [] s
| reads_cons s raw s1 raws s' :
    system_error s = (Ok raw, s1) -> reads s1 raws s' -> reads s (raw :: raws) s'.

End WithInstrument.

(** The same instrument with a counter of the queries made. *)
Definition counting {St : Type} (q : St -> result string * St)
  : St * nat -> result string * (St * nat) :=
  fun '(s, k) => let '(r, s1) := q s in (r, (s1, S k)).

(** A scripted instrument, as the tests build one: [next(queue)] over an
    iterator of lines. *)
Definition scripted (queue : list string) : result string * list string :=
  match queue with
  | raw :: rest => (Ok raw, rest)
  | [] => (Raise StopIteration, [])
  end.

(** The queue of the tests, with one more line behind the terminal entry. *)
Definition two_entries : list string :=
  [ "-101, " ++ quoted "Invalid character";
    "0, " ++ quoted "No error"; "never read" ].

End Drain.

(** ** Notions for the statements *)

Module Notions.

Import PyStr.

(** The exceptions that the response parsers catch and turn into their own. *)
Definition caught (e : exn) : Prop :=
  match e with
  | IndexError _ | ValueError _ | BristolParseError _ => True
  | _ => False
  end.

Definition raises_caught {A : Type} (r : result A) : Prop :=
  forall e, r = Raise e -> caught e.

(** The characters that [__repr__] strips from the text it has built. *)
Definition is_sep (c : ascii) : bool := mem_char c ", ".

(** A name that this stripping leaves whole. *)
Definition name_ok (n : string) : bool :=
  negb (String.eqb n "") && trimmed is_sep n.

(** A text that is empty or starts with white space. *)
Definition starts_blank (s : string) : bool :=
  match s with
  | "" => true
  | String c _ => is_space c
  end.

(** The letters that the older environment parser strips from its fields. *)
Definition is_celsius (c : ascii) : bool := mem_char c "C".

Definition is_mmhg (c : ascii) : bool := mem_char c "MMHG".

End Notions.

(** * Properties *)

(** ** Registers *)

Module RegistersProps.

Import Registers.

Local Open Scope Z_scope.

Lemma range_spec (n i : Z) : In i (range n) <-> 0 <= i < n.
Proof.
  unfold range. rewrite in_map_iff. split.
  - intros [k [<- Hk]]. apply in_seq in Hk. lia.
  - intros Hi. exists (Z.to_nat i). split; [lia|]. apply in_seq. lia.
Qed.

(** Reading one bit by shifting and masking is [Z.testbit]. *)
Lemma land_shiftr_1 (a j : Z) :
  0 <= j -> Z.land (Z.shiftr a j) 1 = Z.b2z (Z.testbit a j).
Proof.
  intros Hj.
  change 1 with (Z.ones 1) at 1.
  rewrite Z.land_ones by lia.
  change (2 ^ 1) with 2.
  rewrite <- Z.bit0_mod, Z.shiftr_spec by lia.
  reflexivity.
Qed.

Lemma testbit_one_shifted (i j : Z) :
  0 <= i -> 0 <= j -> Z.testbit (Z.shiftl 1 i) j = (j =? i).
Proof.
  intros Hi Hj.
  rewrite Z.shiftl_spec by assumption.
  destruct (Z.eqb_spec j i) as [->|Hne].
  - rewrite Z.sub_diag. reflexivity.
  - destruct (Z.lt_ge_cases j i).
    + apply Z.testbit_neg_r. lia.
    + apply Z.bits_above_log2; [lia|]. change (Z.log2 1) with 0. lia.
Qed.

Lemma get_bit_testbit (self : Bits) (j : Z) :
  0 <= j -> get_bit self j = Ok (Z.b2z (Z.testbit (bits_value self) j)).
Proof.
  intros Hj. unfold get_bit, bit_at, py_shiftr.
  destruct (Z.ltb_spec j 0); [lia|].
  cbn [bind]. now rewrite land_shiftr_1.
Qed.

Lemma get_bit_negative (self : Bits) (j : Z) :
  j < 0 -> get_bit self j = Raise (ValueError "negative shift count").
Proof.
  intros Hj. unfold get_bit, bit_at, py_shiftr.
  destruct (Z.ltb_spec j 0); [reflexivity | lia].
Qed.

(** The set bits are the indices below [size] whose bit is 1. *)
Lemma get_set_bits_spec (self : Bits) (i : Z) :
  In i (get_set_bits self) <->
  0 <= i < bits_size self /\ Z.testbit (bits_value self) i = true.
Proof.
  unfold get_set_bits. rewrite filter_In, range_spec.
  split; intros [Hi Hb]; split; try assumption.
  - rewrite land_shiftr_1 in Hb by lia.
    destruct (Z.testbit (bits_value self) i); [reflexivity | discriminate].
  - rewrite land_shiftr_1, Hb by lia. reflexivity.
Qed.

(** With integer fault bits, the first element of the comprehension already
    fails. *)
Lemma get_value_int (self : Bits) (n : Z) :
  get_value self (PyInt n) = Raise no_value_attribute.
Proof. reflexivity. Qed.

(** Even with enumeration members as fault bits, [faults] holds one bit value
    per fault bit, so its length does not depend on the register's value. *)
Lemma faults_of_members_length (self : Bits) (ms : list member) :
  fault_bits self = Some (map PyMember ms) ->
  Forall (fun m => 0 <= value m) ms ->
  exists fs, faults self = Ok fs /\ List.length fs = List.length ms.
Proof.
  intros Hfb Hpos. unfold faults. rewrite Hfb. clear Hfb.
  induction Hpos as [|m ms Hm _ [fs [IH Hlen]]].
  - exists []. split; reflexivity.
  - exists (Z.b2z (Z.testbit (bits_value self) (value m)) :: fs).
    cbn [map comprehension]. unfold get_value at 1. cbn [attr_value bind].
    rewrite get_bit_testbit by assumption. cbn [bind].
    rewrite IH. cbn [bind]. split; [reflexivity | cbn; now rewrite Hlen].
Qed.

(** Only a register without fault bits gets an answer from [is_ok]. *)
Lemma is_ok_without_fault_bits (v : Z) (e : enum_class) (sz : Z) :
  is_ok (mkBits v e sz None) = Ok true /\ is_ok (mkBits v e sz (Some [])) = Ok true.
Proof. split; reflexivity. Qed.

(** C1 (code defect).  [is_ok] raises [AttributeError] on each of the four
    register variants, whatever the value: the fault bits are integers and
    [get_value] reads their [.value].  In particular [EventStatusRegister(0).is_ok]
    does not return [True], and [EventStatusRegister(1 << 5).is_ok] does not
    return [False]. *)
Theorem is_ok_raises_on_every_variant (v : Z) :
  is_ok (EventStatusEnableRegister v) = Raise no_value_attribute /\
  is_ok (EventStatusRegister v) = Raise no_value_attribute /\
  is_ok (InstrumentStatusByte v) = Raise no_value_attribute /\
  is_ok (QuestionableStatusRegister v) = Raise no_value_attribute.
Proof. repeat split. Qed.

(** C2 (code defect).  With a non-empty tuple of integer fault bits, [faults]
    raises [AttributeError] instead of returning the set bits that are fault
    bits. *)
Theorem faults_raises_on_integer_fault_bits
  (v : Z) (e : enum_class) (sz n : Z) (rest : list pyobj) :
  faults (mkBits v e sz (Some (PyInt n :: rest))) = Raise no_value_attribute.
Proof. reflexivity. Qed.

(** On [EventStatusRegister(1 << 5)] the specification asks for the single
    fault 5. *)
Example faults_asked_by_the_specification :
  spec_faults (EventStatusRegister (Z.shiftl 1 5)) [5; 4; 3; 2] = [5] /\
  faults (EventStatusRegister (Z.shiftl 1 5)) = Raise no_value_attribute.
Proof. split; reflexivity. Qed.

Lemma comprehension_raises {A B : Type} (f : A -> result B) (l : list A) (a : A) (e : exn) :
  In a l -> f a = Raise e -> exists e', comprehension f l = Raise e'.
Proof.
  induction l as [|x l IH]; intros Hin Hf; [contradiction|].
  cbn [comprehension]. destruct (f x) as [b|ex] eqn:Hx; cbn [bind].
  - destruct Hin as [->|Hin]; [congruence|].
    destruct (IH Hin Hf) as [e' ->]. now exists e'.
  - now exists ex.
Qed.

Lemma comprehension_exn_from {A B : Type} (f : A -> result B) (l : list A) (e : exn) :
  comprehension f l = Raise e -> exists a, In a l /\ f a = Raise e.
Proof.
  induction l as [|x l IH]; cbn [comprehension]; [discriminate|].
  destruct (f x) as [b|ex] eqn:Hx; cbn [bind].
  - destruct (comprehension f l) as [bs|el]; cbn [bind]; [discriminate|].
    intros [= ->]. destruct (IH eq_refl) as [a [Ha Hfa]].
    exists a. split; [now right | assumption].
  - intros [= ->]. exists x. split; [now left | assumption].
Qed.

(** C3 (code defect).  When a set bit below [size] has no member in the
    register's enumeration, [get_set_values] raises the [ValueError] of the
    failed lookup; the bit is not left out. *)
Theorem get_set_values_raises_on_unnamed_bit (self : Bits) (i : Z) :
  In i (get_set_bits self) ->
  find (fun m => value m =? i) (members (bits_enum self)) = None ->
  exists msg, get_set_values self = Raise (ValueError msg).
Proof.
  intros Hin Hnone. unfold get_set_values.
  set (f := fun bit => let* m := enum_lookup (bits_enum self) bit in Ok (name m)).
  assert (Hf : f i = Raise (ValueError (str_of_int i ++ " is not a valid "
                                         ++ qualname (bits_enum self)))).
  { unfold f, enum_lookup. now rewrite Hnone. }
  destruct (comprehension_raises f _ i _ Hin Hf) as [e' He'].
  rewrite He'. destruct (comprehension_exn_from f _ _ He') as [a [_ Ha]].
  unfold f, enum_lookup in Ha.
  destruct (find _ (members (bits_enum self))) in Ha; cbn [bind] in Ha;
    [discriminate|].
  injection Ha as <-. eauto.
Qed.

Lemma get_set_values_raises_on_unnamed_bit_witness :
  In 0 (get_set_bits (InstrumentStatusByte 1)) /\
  find (fun m => value m =? 0) (members (bits_enum (InstrumentStatusByte 1))) = None /\
  exists msg, get_set_values (InstrumentStatusByte 1) = Raise (ValueError msg).
Proof.
  split; [left; reflexivity|]. split; [reflexivity|].
  apply (get_set_values_raises_on_unnamed_bit (InstrumentStatusByte 1) 0).
  - left; reflexivity.
  - reflexivity.
Defined.

(** The failing input of C3 evaluated. *)
Example get_set_values_status_byte_1 :
  get_set_values (InstrumentStatusByte 1)
  = Raise (ValueError "0 is not a valid InstrumentStatusBits").
Proof. reflexivity. Qed.

(** C10.  For a bit index [i >= 0] and a bit value 0 or 1, [set_bit] returns
    normally; afterwards [get_bit i] is the value written, [get_bit j] is what
    it was for every other [j], and size, fault bits and enumeration are
    untouched. *)
Theorem set_bit_frame (self : Bits) (i v : Z) :
  0 <= i -> v = 0 \/ v = 1 ->
  exists self',
    set_bit self i v = Ok self' /\
    get_bit self' i = Ok v /\
    (forall j, j <> i -> get_bit self' j = get_bit self j) /\
    bits_size self' = bits_size self /\
    fault_bits self' = fault_bits self /\
    bits_enum self' = bits_enum self.
Proof.
  intros Hi Hv.
  assert (Hval : (if negb (bits_value self =? 0) then bits_value self else 0)
                 = bits_value self).
  { destruct (Z.eqb_spec (bits_value self) 0) as [->|]; reflexivity. }
  unfold set_bit, py_shiftl. rewrite Hval.
  destruct (Z.ltb_spec i 0); [lia|].
  destruct Hv as [-> | ->]; cbn [Z.eqb orb negb bind].
  - eexists. split; [reflexivity|]. repeat split.
    + rewrite get_bit_testbit by assumption. cbn [bits_value].
      rewrite Z.land_spec, Z.lnot_spec, testbit_one_shifted, Z.eqb_refl by lia.
      now rewrite andb_false_r.
    + intros j Hj. destruct (Z.lt_ge_cases j 0).
      * now rewrite !get_bit_negative.
      * rewrite !get_bit_testbit by assumption. cbn [bits_value].
        rewrite Z.land_spec, Z.lnot_spec, testbit_one_shifted by lia.
        destruct (Z.eqb_spec j i); [contradiction|].
        now rewrite andb_true_r.
  - eexists. split; [reflexivity|]. repeat split.
    + rewrite get_bit_testbit by assumption. cbn [bits_value].
      rewrite Z.lor_spec, testbit_one_shifted, Z.eqb_refl by lia.
      now rewrite orb_true_r.
    + intros j Hj. destruct (Z.lt_ge_cases j 0).
      * now rewrite !get_bit_negative.
      * rewrite !get_bit_testbit by assumption. cbn [bits_value].
        rewrite Z.lor_spec, testbit_one_shifted by lia.
        destruct (Z.eqb_spec j i); [contradiction|].
        now rewrite orb_false_r.
Qed.

Lemma set_bit_frame_witness :
  exists self',
    set_bit (EventStatusEnableRegister 5) 4 1 = Ok self' /\
    get_bit self' 4 = Ok 1 /\
    (forall j, j <> 4 -> get_bit self' j = get_bit (EventStatusEnableRegister 5) j) /\
    bits_size self' = bits_size (EventStatusEnableRegister 5) /\
    fault_bits self' = fault_bits (EventStatusEnableRegister 5) /\
    bits_enum self' = bits_enum (EventStatusEnableRegister 5).
Proof.
  apply (set_bit_frame (EventStatusEnableRegister 5) 4 1); [lia | right; reflexivity].
Defined.

(** Outside the hypotheses of C10 the call raises. *)
Lemma set_bit_rejects_other_values (self : Bits) (i v : Z) :
  v <> 0 -> v <> 1 -> set_bit self i v = Raise AssertionError.
Proof.
  intros H0 H1. unfold set_bit.
  destruct (Z.eqb_spec v 0); [contradiction|].
  destruct (Z.eqb_spec v 1); [contradiction|]. reflexivity.
Qed.

Lemma set_bit_negative_index (self : Bits) (i v : Z) :
  i < 0 -> v = 0 \/ v = 1 ->
  set_bit self i v = Raise (ValueError "negative shift count").
Proof.
  intros Hi Hv. unfold set_bit, py_shiftl.
  destruct (Z.ltb_spec i 0); [|lia].
  destruct Hv as [-> | ->]; reflexivity.
Qed.

End RegistersProps.

(** ** String primitives *)

Module PyStrProps.

Import PyStr.

Local Open Scope string_scope.

Lemma append_nil_r (s : string) : s ++ "" = s.
Proof. induction s as [|c s IH]; cbn; [reflexivity | now rewrite IH]. Qed.

Lemma append_assoc (a b c : string) : (a ++ b) ++ c = a ++ (b ++ c).
Proof. induction a as [|x a IH]; cbn; [reflexivity | now rewrite IH]. Qed.

Lemma all_chars_app (p : ascii -> bool) (a b : string) :
  all_chars p (a ++ b) = all_chars p a && all_chars p b.
Proof.
  induction a as [|x a IH]; cbn; [reflexivity|].
  now rewrite IH, andb_assoc.
Qed.

Lemma mem_char_app (c : ascii) (a b : string) :
  mem_char c (a ++ b) = mem_char c a || mem_char c b.
Proof.
  induction a as [|x a IH]; cbn; [reflexivity|].
  now rewrite IH, orb_assoc.
Qed.

(** *** Stripping *)

Lemma lstrip_by_all (p : ascii -> bool) (l s : string) :
  all_chars p l = true -> lstrip_by p (l ++ s) = lstrip_by p s.
Proof.
  induction l as [|c l IH]; cbn; [reflexivity|].
  intros H. apply andb_true_iff in H as [Hc Hl]. rewrite Hc. auto.
Qed.

Lemma lstrip_by_all_nil (p : ascii -> bool) (l : string) :
  all_chars p l = true -> lstrip_by p l = "".
Proof.
  intros H. rewrite <- (append_nil_r l). now rewrite lstrip_by_all.
Qed.

Lemma rstrip_by_all_nil (p : ascii -> bool) (r : string) :
  all_chars p r = true -> rstrip_by p r = "".
Proof.
  induction r as [|c r IH]; cbn; [reflexivity|].
  intros H. apply andb_true_iff in H as [Hc Hr]. now rewrite IH, Hc.
Qed.

Lemma rstrip_by_last (p : ascii -> bool) (s : string) (c : ascii) (r : string) :
  p c = false -> all_chars p r = true ->
  rstrip_by p (s ++ String c r) = s ++ String c "".
Proof.
  intros Hc Hr. induction s as [|x s IH]; cbn.
  - now rewrite rstrip_by_all_nil, Hc.
  - rewrite IH. destruct s; reflexivity.
Qed.

Lemma last_char_snoc (s : string) (d : ascii) :
  last_char s = Some d -> exists s0, s = s0 ++ String d "".
Proof.
  induction s as [|c s IH]; [discriminate|].
  destruct s as [|c' s'].
  - cbn. intros [= ->]. now exists "".
  - intros H. change (last_char (String c' s') = Some d) in H.
    destruct (IH H) as [s0 Hs0]. exists (String c s0).
    cbn [append]. now rewrite <- Hs0.
Qed.

Lemma last_char_cons (c : ascii) (s : string) : last_char (String c s) <> None.
Proof.
  revert c. induction s as [|c' s IH]; intros c; [discriminate|].
  change (last_char (String c' s) <> None). apply IH.
Qed.

(** Stripping a trimmed text wrapped in characters of [p] gives the text. *)
Lemma strip_by_wrapped (p : ascii -> bool) (l core r : string) :
  all_chars p l = true -> all_chars p r = true -> trimmed p core = true ->
  rstrip_by p (lstrip_by p (l ++ core ++ r)) = core.
Proof.
  intros Hl Hr Hcore. rewrite lstrip_by_all by assumption.
  destruct core as [|c s].
  - cbn. rewrite lstrip_by_all_nil by assumption. reflexivity.
  - unfold trimmed in Hcore. apply andb_true_iff in Hcore as [Hc Hlast].
    apply negb_true_iff in Hc.
    change ((String c s ++ r)) with (String c (s ++ r)).
    cbn [lstrip_by]. rewrite Hc.
    destruct (last_char (String c s)) as [d|] eqn:Hd.
    + destruct (last_char_snoc _ _ Hd) as [s0 Hs0].
      change (String c (s ++ r)) with (String c s ++ r).
      rewrite Hs0, append_assoc. cbn [append].
      apply rstrip_by_last; [now apply negb_true_iff | assumption].
    + now apply last_char_cons in Hd.
Qed.

Lemma strip_by_trimmed (p : ascii -> bool) (s : string) :
  trimmed p s = true -> rstrip_by p (lstrip_by p s) = s.
Proof.
  intros H. pose proof (strip_by_wrapped p "" s "" eq_refl eq_refl H) as E.
  cbn [append] in E. now rewrite append_nil_r in E.
Qed.

Lemma strip_wrapped (l core r : string) :
  all_space l = true -> all_space r = true -> trimmed is_space core = true ->
  strip (l ++ core ++ r) = core.
Proof. apply strip_by_wrapped. Qed.

(** [strip] with the double quote as its argument removes every leading and
    every trailing double quote. *)
Lemma strip_quotes_wrapped (l core r : string) :
  all_chars is_quote l = true -> all_chars is_quote r = true ->
  trimmed is_quote core = true ->
  strip_chars (String dquote "") (l ++ core ++ r) = core.
Proof. apply (strip_by_wrapped is_quote). Qed.

(** *** Splitting *)

Lemma partition_found (sep : ascii) (a b : string) :
  mem_char sep a = false ->
  partition sep (a ++ String sep b) = (a, String sep "", b).
Proof.
  induction a as [|c a IH]; cbn.
  - intros _. now rewrite Ascii.eqb_refl.
  - intros H. apply orb_false_iff in H as [Hc Ha].
    rewrite Ascii.eqb_sym, Hc, (IH Ha). reflexivity.
Qed.

Lemma partition_missing (sep : ascii) (a : string) :
  mem_char sep a = false -> partition sep a = (a, "", "").
Proof.
  induction a as [|c a IH]; cbn; [reflexivity|].
  intros H. apply orb_false_iff in H as [Hc Ha].
  rewrite Ascii.eqb_sym, Hc, (IH Ha). reflexivity.
Qed.

Lemma split_sep_missing (sep : ascii) (a : string) :
  mem_char sep a = false -> split_sep sep a = [a].
Proof.
  induction a as [|c a IH]; cbn; [reflexivity|].
  intros H. apply orb_false_iff in H as [Hc Ha].
  rewrite Ascii.eqb_sym, Hc, (IH Ha). reflexivity.
Qed.

Lemma split_sep_found (sep : ascii) (a b : string) :
  mem_char sep a = false ->
  split_sep sep (a ++ String sep b) = a :: split_sep sep b.
Proof.
  induction a as [|c a IH]; cbn.
  - intros _. now rewrite Ascii.eqb_refl.
  - intros H. apply orb_false_iff in H as [Hc Ha].
    rewrite Ascii.eqb_sym, Hc, (IH Ha). reflexivity.
Qed.

Lemma split_ws_skip (l s : string) :
  all_space l = true -> split_ws (l ++ s) = split_ws s.
Proof.
  unfold all_space. induction l as [|c l IH]; cbn; [reflexivity|].
  intros H. apply andb_true_iff in H as [Hc Hl]. rewrite Hc. auto.
Qed.

Lemma split_ws_step (c d : ascii) (s : string) :
  split_ws (String c (String d s)) =
  if is_space c then split_ws (String d s)
  else if is_space d then String c "" :: split_ws (String d s)
  else match split_ws (String d s) with
       | h :: r => String c h :: r
       | [] => [String c ""]
       end.
Proof. reflexivity. Qed.

(** The first word ends at the first white space. *)
Lemma split_ws_token (tok : string) (w : ascii) (rest : string) :
  is_token tok = true -> is_space w = true ->
  split_ws (tok ++ String w rest) = tok :: split_ws rest.
Proof.
  unfold is_token. intros Htok Hw.
  apply andb_true_iff in Htok as [Hne Hns].
  induction tok as [|c tok IH]; [discriminate|].
  cbn [all_chars] in Hns. apply andb_true_iff in Hns as [Hc Hns].
  apply negb_true_iff in Hc.
  destruct tok as [|c' tok'].
  - cbn. now rewrite Hc, Hw.
  - assert (Hc' : is_space c' = false).
    { cbn [all_chars] in Hns. apply andb_true_iff in Hns as [H _].
      now apply negb_true_iff in H. }
    specialize (IH eq_refl Hns).
    change (String c (String c' tok') ++ String w rest)
      with (String c (String c' (tok' ++ String w rest))).
    rewrite split_ws_step, Hc, Hc'.
    change (String c' (tok' ++ String w rest))
      with (String c' tok' ++ String w rest).
    rewrite IH. reflexivity.
Qed.

End PyStrProps.

(** ** Text parsers *)

Module ConversionProps.

Import PyStr PyStrProps Conversion.

Local Open Scope string_scope.

Lemma convert_average_state_on : convert_average_state "ON" = Ok true.
Proof. reflexivity. Qed.

Lemma convert_average_state_off : convert_average_state "OFF" = Ok false.
Proof. reflexivity. Qed.

(** Every other token gets the same [ValueError], whose text is the literal of
    the source with its braces. *)
Lemma convert_average_state_other (val : string) :
  val <> "ON" -> val <> "OFF" ->
  convert_average_state val = Raise (ValueError "State not 'On' or 'Off' but '{val}'").
Proof.
  intros Hon Hoff. unfold convert_average_state.
  destruct (String.eqb_spec val "ON"); [contradiction|].
  destruct (String.eqb_spec val "OFF"); [contradiction|]. reflexivity.
Qed.

(** C5 (code defect).  On the token [MAYBE] the [ValueError] raised by
    [convert_average_state] does not name the token: its message is the fixed
    text with the placeholder left in. *)
Theorem convert_average_state_message_omits_token :
  convert_average_state "MAYBE"
  = Raise (ValueError "State not 'On' or 'Off' but '{val}'") /\
  contains "MAYBE" "State not 'On' or 'Off' but '{val}'" = false.
Proof. split; reflexivity. Qed.

Lemma py_int_raises_value_error (s : string) (e : exn) :
  py_int s = Raise e -> exists msg, e = ValueError msg.
Proof.
  unfold py_int. destruct (int_digits 0 false _); [|intros [= <-]; eauto].
  destruct (int_max_str_digits <? _)%Z; [intros [= <-]; eauto|].
  destruct (int_literal (strip_blank s)); [discriminate|].
  intros [= <-]. eauto.
Qed.

(** C6 (as amended).  [parse_system_error] splits at the first comma and
    fails with a parse error when there is none; the text before the comma,
    trimmed, is read by [int], a failure being a parse error; the message is
    the text after the comma, trimmed, with every leading and every trailing
    double quote removed. *)
Theorem parse_system_error_first_comma (a b : string) :
  mem_char "," a = false ->
  parse_system_error a
  = Raise (BristolParseError
             ("Invalid SYSTEM:ERROR response format (missing comma): " ++ repr a)) /\
  parse_system_error (a ++ String "," b)
  = match py_int (strip a) with
    | Ok code => Ok (code, strip_chars (String dquote "") (strip b))
    | Raise _ =>
        Raise (BristolParseError
                 ("Invalid SYSTEM:ERROR code in response: "
                  ++ repr (a ++ String "," b)))
    end /\
  (forall code l core r,
      py_int (strip a) = Ok code ->
      strip b = l ++ core ++ r ->
      all_chars is_quote l = true -> all_chars is_quote r = true ->
      trimmed is_quote core = true ->
      parse_system_error (a ++ String "," b) = Ok (code, core)).
Proof.
  intros Ha.
  assert (Hsplit : parse_system_error (a ++ String "," b)
                   = match py_int (strip a) with
                     | Ok code => Ok (code, strip_chars (String dquote "") (strip b))
                     | Raise _ =>
                         Raise (BristolParseError
                                  ("Invalid SYSTEM:ERROR code in response: "
                                   ++ repr (a ++ String "," b)))
                     end).
  { unfold parse_system_error. rewrite (partition_found "," a b Ha).
    destruct (py_int (strip a)) as [code|e] eqn:Hint; [reflexivity|].
    destruct (py_int_raises_value_error _ _ Hint) as [msg ->]. reflexivity. }
  split; [|split].
  - unfold parse_system_error. now rewrite (partition_missing "," a Ha).
  - exact Hsplit.
  - intros code l core r Hcode Hb Hl Hr Hcore.
    rewrite Hsplit, Hcode, Hb.
    now rewrite strip_quotes_wrapped.
Qed.

Lemma parse_system_error_first_comma_witness :
  mem_char "," " -101 " = false /\
  parse_system_error (" -101 " ++ String "," ("  " ++ quoted (quoted "x, y") ++ " "))
  = Ok (-101, "x, y").
Proof.
  split; [reflexivity|].
  apply (parse_system_error_first_comma
           " -101 " ("  " ++ quoted (quoted "x, y") ++ " ") eq_refl)
    with (l := String dquote (String dquote ""))
         (r := String dquote (String dquote "")); reflexivity.
Defined.

(** C6 as it was stated fails: a message inside two layers of double quotes
    loses both, it does not keep the inner layer. *)
Lemma parse_system_error_strips_all_quotes :
  parse_system_error ("5, " ++ quoted (quoted "x")) = Ok (5, "x") /\
  parse_system_error ("5, " ++ quoted (quoted "x")) <> Ok (5, quoted "x").
Proof. split; [reflexivity | discriminate]. Qed.

(** A quote on one side only is removed as well. *)
Example parse_system_error_lone_quote :
  parse_system_error ("5, " ++ String dquote "x") = Ok (5, "x").
Proof. reflexivity. Qed.

End ConversionProps.

(** ** Draining the error queue *)

Module DrainProps.

Import PyStr ErrorCodes Conversion Drain.

Local Open Scope list_scope.

Lemma error_eqb_eq (a b : SCPIErrors) : error_eqb a b = true <-> a = b.
Proof. destruct a, b; cbn; split; (reflexivity || discriminate). Qed.

Lemma error_eqb_no_error (e : SCPIErrors) :
  e <> NO_ERROR -> error_eqb e NO_ERROR = false.
Proof.
  intros H. destruct (error_eqb e NO_ERROR) eqn:E; [|reflexivity].
  now apply error_eqb_eq in E.
Qed.

(** The active errors of a drained queue are the entries before the
    terminal one. *)
Lemma active_errors_of_drained (pre : list entry) (msg : string) :
  Forall (fun e => fst e <> NO_ERROR) pre ->
  filter (fun e => negb (error_eqb (fst e) NO_ERROR)) (pre ++ [(NO_ERROR, msg)]) = pre.
Proof.
  induction 1 as [|e pre He _ IH]; cbn; [reflexivity|].
  rewrite (error_eqb_no_error _ He). cbn. now rewrite IH.
Qed.

Section WithInstrument.

Variable St : Type.
Variable system_error : St -> result string * St.

Local Abbreviation drain := (drain_error_queue St system_error).
Local Abbreviation reads := (Drain.reads St system_error).


Lemma drain_loop_exhausted (es : list entry) :
  forall (acc : list entry) (s : St) (raws : list string) (s' : St),
    reads s raws s' ->
    Forall2 (fun raw e => read_entry raw = Ok e) raws es ->
    Forall (fun e => fst e <> NO_ERROR) es ->
    drain_loop St system_error (List.length raws) acc s
    = (Ok (Exhausted (acc ++ es)), s').
Proof.
  induction es as [|e es IH]; intros acc s raws s' Hreads Hparse Hes.
  - inversion Hparse; subst. inversion Hreads; subst.
    cbn. now rewrite app_nil_r.
  - inversion Hparse as [|raw e0 raws0 es0 Hraw Hrest]; subst.
    inversion Hreads as [|? ? s1 ? ? Hq Hnext]; subst.
    inversion Hes as [|? ? He Hes']; subst.
    cbn [List.length drain_loop]. rewrite Hq. cbn [bind]. rewrite Hraw.
    destruct e as [err m]. cbn [fst] in He.
    rewrite (error_eqb_no_error _ He).
    rewrite (IH (acc ++ [(err, m)]) s1 raws0 s' Hnext Hrest Hes').
    now rewrite <- app_assoc.
Qed.


(** The loop makes at most [n] queries. *)
Lemma drain_loop_query_count (n : nat) :
  forall (acc : list entry) (s : St) (k : nat),
    (snd (snd (drain_loop _ (counting system_error) n acc (s, k))) <= k + n)%nat.
Proof.
  induction n as [|n IH]; intros acc s k; cbn [drain_loop].
  - cbn. lia.
  - unfold counting at 1. destruct (system_error s) as [r s1].
    destruct (let* raw := r in read_entry raw) as [[err m]|e].
    + destruct (error_eqb err NO_ERROR).
      * cbn. lia.
      * specialize (IH (acc ++ [(err, m)]) s1 (S k)). lia.
    + cbn. lia.
Qed.

(** C8.  With [max_reads <= 0] the drain raises [ValueError] without a query.
    In every case it makes at most [max_reads] queries.  When [max_reads]
    responses in a row are well formed and none is [NO_ERROR], it raises the
    error saying that the queue did not terminate, and returns nothing. *)
Theorem drain_read_budget (raise_on_error : bool) (max_reads : Z) (s : St) :
  ((max_reads <= 0)%Z ->
   drain raise_on_error max_reads s
   = (Raise (ValueError "max_reads must be > 0"), s)) /\
  (forall k : nat,
      (snd (snd (drain_error_queue _ (counting system_error)
                   raise_on_error max_reads (s, k)))
       <= k + Z.to_nat max_reads)%nat) /\
  (forall (raws : list string) (es : list entry) (s' : St),
      (0 < max_reads)%Z ->
      reads s raws s' ->
      List.length raws = Z.to_nat max_reads ->
      Forall2 (fun raw e => read_entry raw = Ok e) raws es ->
      Forall (fun e => fst e <> NO_ERROR) es ->
      drain raise_on_error max_reads s
      = (Raise (SCPICommandError
                  ("SYSTEM:ERROR queue did not terminate with NO_ERROR within "
                   ++ str_of_int max_reads ++ " reads")%string), s')).
Proof.
  split; [|split].
  - intros Hle. unfold drain_error_queue.
    destruct (Z.leb_spec max_reads 0); [reflexivity | lia].
  - intros k. unfold drain_error_queue.
    destruct (max_reads <=? 0)%Z; [cbn; lia|].
    pose proof (drain_loop_query_count (Z.to_nat max_reads) [] s k) as Hcount.
    destruct (drain_loop _ (counting system_error) (Z.to_nat max_reads) [] (s, k))
      as [[[entries|entries]|e] [s1 k1]]; cbn [snd] in *.
    + destruct raise_on_error; [|exact Hcount].
      cbv zeta.
      destruct (filter (fun e => negb (error_eqb (fst e) NO_ERROR)) entries);
        exact Hcount.
    + exact Hcount.
    + exact Hcount.
  - intros raws es s' Hpos Hreads Hlen Hparse Hes. unfold drain_error_queue.
    destruct (Z.leb_spec max_reads 0); [lia|].
    rewrite <- Hlen.
    now rewrite (drain_loop_exhausted es [] s raws s' Hreads Hparse Hes).
Qed.

End WithInstrument.




Lemma drain_read_budget_witness :
  drain_error_queue _ scripted false 0 two_entries
  = (Raise (ValueError "max_reads must be > 0"), two_entries) /\
  (snd (snd (drain_error_queue _ (counting scripted) false 1 (two_entries, 0%nat)))
   <= 1)%nat /\
  drain_error_queue _ scripted false 1 two_entries
  = (Raise (SCPICommandError
              "SYSTEM:ERROR queue did not terminate with NO_ERROR within 1 reads"),
     [ ("0, " ++ quoted "No error")%string; "never read"%string ]).
Proof.
  split; [|split].
  - apply (proj1 (drain_read_budget _ scripted false 0 two_entries)). lia.
  - apply (proj1 (proj2 (drain_read_budget _ scripted false 1 two_entries)) 0%nat).
  - apply (proj2 (proj2 (drain_read_budget _ scripted false 1 two_entries))
             [ ("-101, " ++ quoted "Invalid character")%string ]
             [ (INVALID_CHARACTER, "Invalid character"%string) ]).
    + lia.
    + repeat (econstructor; try reflexivity).
    + reflexivity.
    + repeat constructor.
    + repeat constructor. discriminate.
Defined.

End DrainProps.

(** ** The environment response *)

Module EnvironmentProps.

Import PyStr PyStrProps Conversion.

Local Open Scope string_scope.

Lemma all_chars_impl (p q : ascii -> bool) (s : string) :
  (forall c, p c = true -> q c = true) -> all_chars p s = true -> all_chars q s = true.
Proof.
  intros Hpq. induction s as [|c s IH]; cbn; [reflexivity|].
  intros H. apply andb_true_iff in H as [Hc Hs].
  now rewrite (Hpq c Hc), IH.
Qed.

Lemma mem_char_none (c : ascii) (s : string) :
  all_chars (fun d => negb (Ascii.eqb c d)) s = true -> mem_char c s = false.
Proof.
  induction s as [|d s IH]; cbn; [reflexivity|].
  intros H. apply andb_true_iff in H as [Hd Hs].
  apply negb_true_iff in Hd. now rewrite Hd, IH.
Qed.

(** White space holds no comma. *)
Lemma all_space_no_comma (w : string) : all_space w = true -> mem_char "," w = false.
Proof.
  intros H. apply mem_char_none. revert H. apply all_chars_impl.
  intros c Hc. destruct (Ascii.eqb_spec "," c) as [<-|]; [discriminate | reflexivity].
Qed.

Lemma last_char_app_cons (a : string) (c : ascii) (b : string) :
  last_char (a ++ String c b) = last_char (String c b).
Proof.
  induction a as [|x a IH]; [reflexivity|].
  cbn [append]. destruct (a ++ String c b) eqn:E.
  - destruct a; discriminate.
  - rewrite <- IH. reflexivity.
Qed.

(** *** Words that [float] refuses *)

Section Ending.

Variable c : ascii.
Hypothesis Hc : ends_no_float c = true.

Lemma ending_facts :
  is_digit c = false /\ Ascii.eqb c "." = false /\ Ascii.eqb c "_" = false /\
  Ascii.eqb c "+" = false /\ Ascii.eqb c "-" = false /\
  Ascii.eqb (lower c) "f" = false /\ Ascii.eqb (lower c) "y" = false /\
  Ascii.eqb (lower c) "n" = false /\ Ascii.eqb (lower c) "e" = false.
Proof.
  unfold ends_no_float in Hc. apply negb_true_iff in Hc.
  repeat (apply orb_false_iff in Hc as [Hc ?]). repeat split; assumption.
Qed.

Lemma remove_underscores_snoc (x : string) :
  remove_underscores (x ++ String c "") = remove_underscores x ++ String c "".
Proof.
  destruct ending_facts as (_ & _ & Hu & _).
  induction x as [|d x IH]; cbn.
  - now rewrite Hu.
  - rewrite IH. now destruct (Ascii.eqb d "_").
Qed.

Lemma split_sign_snoc (x : string) :
  exists neg y, split_sign (x ++ String c "") = (neg, y ++ String c "").
Proof.
  destruct ending_facts as (_ & _ & _ & Hp & Hm & _).
  destruct x as [|d x]; cbn.
  - rewrite Hp, Hm. now exists false, "".
  - destruct (Ascii.eqb d "+"); [now exists false, x|].
    destruct (Ascii.eqb d "-"); [now exists true, x|].
    now exists false, (String d x).
Qed.

Lemma span_digits_snoc (x : string) :
  forall acc len, exists acc' len' y,
    span_digits acc len (x ++ String c "") = (acc', len', y ++ String c "").
Proof.
  destruct ending_facts as (Hd & _).
  induction x as [|d x IH]; intros acc len; cbn.
  - rewrite Hd. now exists acc, len, "".
  - destruct (is_digit d).
    + apply IH.
    + now exists acc, len, (String d x).
Qed.

Lemma snoc_not_nil (y : string) : y ++ String c "" <> "".
Proof. destruct y; discriminate. Qed.

Lemma lower_e (d : ascii) :
  Ascii.eqb d "e" || Ascii.eqb d "E" = true -> Ascii.eqb (lower d) "e" = true.
Proof.
  intros H. apply orb_true_iff in H as [H|H]; apply Ascii.eqb_eq in H; now subst.
Qed.

Lemma exponent_part_snoc (x : string) : exponent_part (x ++ String c "") = None.
Proof.
  destruct ending_facts as (_ & _ & _ & _ & _ & _ & _ & _ & He).
  destruct x as [|d x]; cbn [append exponent_part].
  - destruct (Ascii.eqb c "e" || Ascii.eqb c "E") eqn:E; [|reflexivity].
    apply lower_e in E. congruence.
  - destruct (Ascii.eqb d "e" || Ascii.eqb d "E"); [|reflexivity].
    destruct (split_sign_snoc x) as (neg & y & ->).
    destruct (span_digits_snoc y 0%Z 0%Z) as (v & len & z & ->).
    destruct (z ++ String c "") eqn:Ez; [now apply snoc_not_nil in Ez | reflexivity].
Qed.

Lemma decimal_literal_snoc (x : string) : decimal_literal (x ++ String c "") = None.
Proof.
  destruct ending_facts as (_ & Hdot & _).
  unfold decimal_literal.
  destruct (span_digits_snoc x 0%Z 0%Z) as (ip & ilen & r & ->).
  destruct r as [|d r]; cbn [append].
  - rewrite Hdot. destruct (0 <? ilen + 0)%Z; [|reflexivity].
    pose proof (exponent_part_snoc "") as E. cbn [append] in E. now rewrite E.
  - destruct (Ascii.eqb d ".").
    + destruct (span_digits_snoc r ip 0%Z) as (m & flen & r' & ->).
      destruct (0 <? ilen + flen)%Z; [|reflexivity].
      now rewrite exponent_part_snoc.
    + destruct (0 <? ilen + 0)%Z; [|reflexivity].
      pose proof (exponent_part_snoc (String d r)) as E. cbn [append] in E.
      now rewrite E.
Qed.

Lemma lowercase_snoc (x : string) :
  lowercase (x ++ String c "") = lowercase x ++ String (lower c) "".
Proof. induction x as [|d x IH]; cbn; [reflexivity | now rewrite IH]. Qed.

Lemma last_char_snoc_eq (x : string) (d : ascii) : last_char (x ++ String d "") = Some d.
Proof. now rewrite last_char_app_cons. Qed.

Lemma inf_or_nan_snoc (neg : bool) (x : string) : inf_or_nan neg (x ++ String c "") = None.
Proof.
  destruct ending_facts as (_ & _ & _ & _ & _ & Hf & Hy & Hn & _).
  unfold inf_or_nan. rewrite lowercase_snoc.
  assert (Hlast : forall lit e, last_char lit = Some e -> Ascii.eqb (lower c) e = false ->
                  String.eqb (lowercase x ++ String (lower c) "") lit = false).
  { intros lit e Hlit Hne. apply String.eqb_neq. intros Heq.
    rewrite <- Heq, last_char_snoc_eq in Hlit. injection Hlit as Hlit.
    rewrite Hlit, Ascii.eqb_refl in Hne. discriminate. }
  rewrite (Hlast "inf" "f"%char eq_refl Hf), (Hlast "infinity" "y"%char eq_refl Hy),
    (Hlast "nan" "n"%char eq_refl Hn).
  reflexivity.
Qed.

(** No float literal ends with such a character. *)
Lemma float_literal_snoc (x : string) : float_literal (x ++ String c "") = None.
Proof.
  unfold float_literal.
  destruct (underscores_ok None (x ++ String c "")); [|reflexivity].
  rewrite remove_underscores_snoc.
  destruct (split_sign_snoc (remove_underscores x)) as (neg & y & ->).
  now rewrite decimal_literal_snoc, inf_or_nan_snoc.
Qed.

End Ending.

Lemma is_blank_is_space (c : ascii) : is_blank c = true -> is_space c = true.
Proof.
  unfold is_blank, is_space.
  destruct (between 9 13 c), (between 28 31 c), (code c =? 32)%N,
    (code c =? 133)%N, (code c =? 160)%N; cbn; congruence.
Qed.

Lemma all_chars_last (p : ascii -> bool) (s : string) (d : ascii) :
  all_chars p s = true -> last_char s = Some d -> p d = true.
Proof.
  intros Hall Hlast. destruct (last_char_snoc s d Hlast) as [s0 ->].
  rewrite all_chars_app in Hall. apply andb_true_iff in Hall as [_ Hd].
  cbn in Hd. now rewrite andb_true_r in Hd.
Qed.

(** A token has nothing to trim, for [strip()] and for [float()]. *)
Lemma token_trimmed (p : ascii -> bool) (word : string) :
  (forall c, p c = true -> is_space c = true) ->
  is_token word = true -> trimmed p word = true.
Proof.
  intros Hp Hword. unfold is_token in Hword.
  apply andb_true_iff in Hword as [_ Hns].
  assert (Hnp : forall c, negb (is_space c) = true -> negb (p c) = true).
  { intros c Hc. apply negb_true_iff in Hc. apply negb_true_iff.
    destruct (p c) eqn:E; [|reflexivity]. apply Hp in E. congruence. }
  destruct word as [|c word]; [reflexivity|].
  unfold trimmed. pose proof Hns as Hns'. cbn [all_chars] in Hns'.
  apply andb_true_iff in Hns' as [Hc _]. rewrite (Hnp c Hc). cbn [andb].
  destruct (last_char (String c word)) as [d|] eqn:Hd; [|reflexivity].
  apply Hnp. exact (all_chars_last _ _ _ Hns Hd).
Qed.

Lemma split_ws_single (word : string) : is_token word = true -> split_ws word = [word].
Proof.
  unfold is_token. intros H. apply andb_true_iff in H as [Hne Hns].
  destruct word as [|c word]; [discriminate|]. clear Hne.
  revert c Hns. induction word as [|c' word IH]; intros c Hns;
    cbn [all_chars] in Hns; apply andb_true_iff in Hns as [Hc Hns];
    apply negb_true_iff in Hc.
  - cbn. now rewrite Hc.
  - assert (Hc' : is_space c' = false).
    { cbn [all_chars] in Hns. apply andb_true_iff in Hns as [H _].
      now apply negb_true_iff in H. }
    rewrite split_ws_step, Hc, Hc', (IH c' Hns). reflexivity.
Qed.

Lemma is_token_app (a b : string) :
  is_token a = true -> all_chars (fun c => negb (is_space c)) b = true ->
  is_token (a ++ b) = true.
Proof.
  unfold is_token. intros Ha Hb. apply andb_true_iff in Ha as [Hne Hns].
  rewrite all_chars_app, Hns, Hb. destruct a; [discriminate | reflexivity].
Qed.

(** A field whose unit follows the number at once: its only word is the
    number with the unit, and [float] refuses it. *)
Lemma field_adjacent_word (wa tok unit wc : string) (d : ascii) :
  all_space wa = true -> is_token tok = true ->
  all_chars (fun c => negb (is_space c)) (unit ++ String d "") = true ->
  ends_no_float d = true -> all_space wc = true ->
  exists word msg,
    index0 (split_ws (strip (wa ++ tok ++ (unit ++ String d "") ++ wc))) = Ok word /\
    py_float word = Raise (ValueError msg).
Proof.
  intros Hwa Htok Hunit Hd Hwc.
  assert (Hword : is_token (tok ++ unit ++ String d "") = true)
    by now apply is_token_app.
  exists (tok ++ unit ++ String d ""). eexists. split.
  - rewrite <- (append_assoc tok), (strip_wrapped wa _ wc Hwa Hwc).
    + now rewrite split_ws_single.
    + now apply token_trimmed.
  - unfold py_float, strip_blank.
    rewrite strip_by_trimmed
      by (apply token_trimmed; [exact is_blank_is_space | exact Hword]).
    rewrite <- !append_assoc, (float_literal_snoc d Hd). reflexivity.
Qed.

(** One field of the response: white space, the number, white space, the
    unit, white space.  Trimming and splitting give the number back. *)
Lemma field_first_word (wa tok wb unit wc : string) (d : ascii) :
  all_space wa = true -> is_token tok = true ->
  all_space wb = true -> wb <> "" ->
  last_char unit = Some d -> is_space d = false ->
  all_space wc = true ->
  index0 (split_ws (strip (wa ++ tok ++ wb ++ unit ++ wc))) = Ok tok.
Proof.
  intros Hwa Htok Hwb Hne Hlast Hd Hwc.
  assert (Hcore : strip (wa ++ (tok ++ wb ++ unit) ++ wc) = tok ++ wb ++ unit).
  { apply strip_wrapped; try assumption.
    pose proof Htok as Htok'. unfold is_token in Htok'.
    apply andb_true_iff in Htok' as [Hnonempty Hns].
    destruct tok as [|c tok]; [discriminate|].
    cbn [all_chars] in Hns. apply andb_true_iff in Hns as [Hc _].
    unfold trimmed. cbn [append]. rewrite Hc. cbn [andb].
    change (String c (tok ++ wb ++ unit)) with (String c tok ++ wb ++ unit).
    destruct unit as [|u unit]; [discriminate|].
    rewrite <- append_assoc, last_char_app_cons, Hlast, Hd. reflexivity. }
  rewrite !append_assoc in Hcore. rewrite Hcore.
  destruct wb as [|w wb]; [contradiction|].
  unfold all_space in Hwb. cbn [all_chars] in Hwb.
  apply andb_true_iff in Hwb as [Hw _].
  cbn [append]. now rewrite split_ws_token.
Qed.

Lemma of_nat_length_three {A : Type} (a b c : A) (l : list A) :
  (Z.of_nat (List.length (a :: b :: c :: l)) =? 2)%Z = false.
Proof. apply Z.eqb_neq. cbn [List.length]. lia. Qed.

(** C4 (as amended).  When each number is followed by white space and then
    its unit, with any white space around the fields, the parser returns the
    two numbers as [float] reads them.  When the unit follows the number at
    once, in the first field or in the second, the parser raises its parse
    error. *)
Theorem environment_units_after_whitespace
  (wa t_tok wb wc wd p_tok we wf : string) (t p : spec_float) :
  is_token t_tok = true -> mem_char "," t_tok = false ->
  is_token p_tok = true -> mem_char "," p_tok = false ->
  all_space wa = true -> all_space wb = true -> wb <> "" -> all_space wc = true ->
  all_space wd = true -> all_space we = true -> we <> "" -> all_space wf = true ->
  py_float t_tok = Ok t -> py_float p_tok = Ok p ->
  convert_environment_to_environment_data
    ((wa ++ t_tok ++ wb ++ "C" ++ wc) ++ "," ++ (wd ++ p_tok ++ we ++ "MMHG" ++ wf))
  = Ok (mkEnvironment t p) /\
  (forall rest : string,
      let val := (wa ++ t_tok ++ "C" ++ wc) ++ "," ++ rest in
      convert_environment_to_environment_data val
      = Raise (BristolParseError
                 ("Invalid environment response format: " ++ repr val))) /\
  (let val := (wa ++ t_tok ++ wb ++ "C" ++ wc) ++ "," ++ (wd ++ p_tok ++ "MMHG" ++ wf) in
   convert_environment_to_environment_data val
   = Raise (BristolParseError
              ("Invalid environment response format: " ++ repr val))).
Proof.
  intros Ht Htc Hp Hpc Hwa Hwb Hwbne Hwc Hwd Hwe Hwene Hwf Hft Hfp.
  assert (Hcomma : forall u v w x : string,
             mem_char "," u = false -> mem_char "," v = false ->
             mem_char "," w = false -> mem_char "," x = false ->
             mem_char "," (u ++ v ++ w ++ x) = false).
  { intros u v w x Hu Hv Hw Hx. now rewrite !mem_char_app, Hu, Hv, Hw, Hx. }
  pose proof (all_space_no_comma wa Hwa) as Hca.
  pose proof (all_space_no_comma wb Hwb) as Hcb.
  pose proof (all_space_no_comma wc Hwc) as Hcc.
  pose proof (all_space_no_comma wd Hwd) as Hcd.
  pose proof (all_space_no_comma we Hwe) as Hce.
  pose proof (all_space_no_comma wf Hwf) as Hcf.
  assert (HA : mem_char "," (wa ++ t_tok ++ wb ++ "C" ++ wc) = false).
  { apply Hcomma; first [assumption | reflexivity]. }
  assert (HA' : mem_char "," (wa ++ t_tok ++ "C" ++ wc) = false).
  { apply Hcomma; first [assumption | reflexivity]. }
  assert (HB : mem_char "," (wd ++ p_tok ++ we ++ "MMHG" ++ wf) = false).
  { apply Hcomma; first [assumption | reflexivity]. }
  assert (HB' : mem_char "," (wd ++ p_tok ++ "MMHG" ++ wf) = false).
  { apply Hcomma; first [assumption | reflexivity]. }
  pose proof (field_first_word wa t_tok wb "C" wc "C" Hwa Ht Hwb Hwbne
                eq_refl eq_refl Hwc) as Hfield_t.
  split; [|split].
  - unfold convert_environment_to_environment_data, validate_response.
    change ("," ++ (wd ++ p_tok ++ we ++ "MMHG" ++ wf))
      with (String "," (wd ++ p_tok ++ we ++ "MMHG" ++ wf)).
    rewrite (split_sep_found "," _ _ HA), (split_sep_missing "," _ HB).
    cbn [map List.length Z.of_nat Pos.of_succ_nat Pos.succ Z.eqb Pos.eqb negb bind].
    rewrite Hfield_t. cbn [bind]. rewrite Hft. cbn [bind].
    rewrite (field_first_word wd p_tok we "MMHG" wf "G")
      by (assumption || reflexivity).
    cbn [bind]. rewrite Hfp. reflexivity.
  - intros rest val.
    destruct (field_adjacent_word wa t_tok "" wc "C" Hwa Ht eq_refl eq_refl Hwc)
      as (word & msg & Hword & Hfloat).
    cbn [append] in Hword.
    unfold convert_environment_to_environment_data, validate_response.
    subst val. change ("," ++ rest) with (String "," rest).
    rewrite (split_sep_found "," _ _ HA').
    destruct (split_sep "," rest) as [|B [|C l]].
    + reflexivity.
    + cbn [map List.length Z.of_nat Pos.of_succ_nat Pos.succ Z.eqb Pos.eqb negb bind].
      change (String "C" wc) with ("C" ++ wc) in Hword.
      rewrite Hword. cbn [bind]. rewrite Hfloat. reflexivity.
    + cbn [map]. rewrite of_nat_length_three. reflexivity.
  - intros val.
    destruct (field_adjacent_word wd p_tok "MMH" wf "G" Hwd Hp eq_refl eq_refl Hwf)
      as (word & msg & Hword & Hfloat).
    cbn [append] in Hword.
    unfold convert_environment_to_environment_data, validate_response.
    subst val.
    change ("," ++ (wd ++ p_tok ++ "MMHG" ++ wf))
      with (String "," (wd ++ p_tok ++ "MMHG" ++ wf)).
    rewrite (split_sep_found "," _ _ HA), (split_sep_missing "," _ HB').
    cbn [map List.length Z.of_nat Pos.of_succ_nat Pos.succ Z.eqb Pos.eqb negb bind].
    rewrite Hfield_t. cbn [bind]. rewrite Hft. cbn [bind].
    change (String "M" (String "M" (String "H" (String "G" wf))))
      with ("MMHG" ++ wf) in Hword.
    rewrite Hword. cbn [bind]. rewrite Hfloat. reflexivity.
Qed.

Lemma environment_units_after_whitespace_witness :
  convert_environment_to_environment_data " 25.4 C ,  755.2 MMHG "
  = Ok (mkEnvironment (S754_finite false 7149464408450662 (-48))
                      (S754_finite false 6642809450371482 (-43))).
Proof.
  apply (environment_units_after_whitespace
           " " "25.4" " " " " "  " "755.2" " " " "); reflexivity || discriminate.
Defined.

(** The two numbers of the example are the binary64 values nearest to 25.4 and
    to 755.2: they differ from them by at most half a unit in the last place,
    2^-49 and 2^-44. *)
Example nearest_to_25_4 :
  of_decimal false 254 (-1) = S754_finite false 7149464408450662 (-48) /\
  (2 * Z.abs (7149464408450662 * 10 - 254 * 2 ^ 48) <= 10)%Z /\
  of_decimal false 7552 (-1) = S754_finite false 6642809450371482 (-43) /\
  (2 * Z.abs (6642809450371482 * 10 - 7552 * 2 ^ 43) <= 10)%Z.
Proof. repeat split; vm_compute; discriminate. Qed.

(** C4 as it was stated fails: with the unit right after the number, the
    first word of a field is not a number and the parser raises. *)
Lemma environment_adjacent_units_rejected :
  convert_environment_to_environment_data "25.4C, 755.2MMHG"
  = Raise (BristolParseError
             "Invalid environment response format: '25.4C, 755.2MMHG'").
Proof. reflexivity. Qed.

(** The older package reads the adjacent form and rejects the test's
    spaced form; neither parser reads both. *)
Example legacy_reads_adjacent_units :
  Legacy.convert_environment_to_environment_data "25.4C, 755.2MMHG"
  = Ok (mkEnvironment (S754_finite false 7149464408450662 (-48))
                      (S754_finite false 6642809450371482 (-43))).
Proof. reflexivity. Qed.

Example legacy_rejects_spaced_units :
  Legacy.convert_environment_to_environment_data " 25.4 C ,  755.2 MMHG "
  = Raise (ValueError "could not convert string to float: ' 25.4 C '").
Proof. reflexivity. Qed.

End EnvironmentProps.

(** ** More on the registers *)

Module RegistersMore.

Import Registers RegistersProps.

Local Open Scope Z_scope.

Lemma bits_eq (a b : Bits) :
  bits_value a = bits_value b -> bits_enum a = bits_enum b ->
  bits_size a = bits_size b -> fault_bits a = fault_bits b -> a = b.
Proof. destruct a, b; cbn; intros; subst; reflexivity. Qed.

(** What [set_bit] does to the bits of the value. *)
Lemma set_bit_bits (self : Bits) (i v : Z) :
  0 <= i -> v = 0 \/ v = 1 ->
  exists self',
    set_bit self i v = Ok self' /\
    bits_enum self' = bits_enum self /\
    bits_size self' = bits_size self /\
    fault_bits self' = fault_bits self /\
    forall j, 0 <= j ->
      Z.testbit (bits_value self') j
      = if j =? i then v =? 1 else Z.testbit (bits_value self) j.
Proof.
  intros Hi Hv.
  assert (Hval : (if negb (bits_value self =? 0) then bits_value self else 0)
                 = bits_value self).
  { destruct (Z.eqb_spec (bits_value self) 0) as [->|]; reflexivity. }
  unfold set_bit, py_shiftl. rewrite Hval.
  destruct (Z.ltb_spec i 0); [lia|].
  destruct Hv as [-> | ->]; cbn [Z.eqb orb negb bind];
    eexists; (split; [reflexivity|]); repeat split; intros j Hj; cbn [bits_value].
  - rewrite Z.land_spec, Z.lnot_spec, testbit_one_shifted by lia.
    destruct (j =? i); [apply andb_false_r | apply andb_true_r].
  - rewrite Z.lor_spec, testbit_one_shifted by lia.
    destruct (j =? i); [apply orb_true_r | apply orb_false_r].
Qed.

Lemma range_sorted (n : Z) : StronglySorted Z.lt (range n).
Proof.
  unfold range. generalize (Z.to_nat n) as len, 0%nat as start.
  induction len as [|len IH]; intros start; cbn; constructor.
  - apply IH.
  - apply Forall_forall. intros y Hy. apply in_map_iff in Hy as [k [<- Hk]].
    apply in_seq in Hk. lia.
Qed.

Lemma filter_sorted {A : Type} (R : A -> A -> Prop) (f : A -> bool) (l : list A) :
  StronglySorted R l -> StronglySorted R (filter f l).
Proof.
  induction 1 as [|a l Hs IH Hall]; cbn; [constructor|].
  destruct (f a); [|exact IH]. constructor; [exact IH|].
  apply Forall_forall. intros y Hy. apply filter_In in Hy as [Hy _].
  rewrite Forall_forall in Hall. auto.
Qed.

(** X1.  [get_set_bits] lists, in increasing order and once each, exactly the
    indices below [size] at which the value has a 1. *)
Theorem get_set_bits_sorted_exact (self : Bits) :
  StronglySorted Z.lt (get_set_bits self) /\
  forall i, In i (get_set_bits self) <->
            0 <= i < bits_size self /\ Z.testbit (bits_value self) i = true.
Proof.
  split; [apply filter_sorted, range_sorted | apply get_set_bits_spec].
Qed.

(** X2.  Bits at or above [size] do not count: masking the value to [size] bits
    leaves [get_set_bits] as it is. *)
Theorem get_set_bits_masks_value (v : Z) (e : enum_class) (sz : Z) (fb : option (list pyobj)) :
  0 <= sz ->
  get_set_bits (mkBits (Z.land v (Z.shiftl 1 sz - 1)) e sz fb)
  = get_set_bits (mkBits v e sz fb).
Proof.
  intros Hsz. replace (Z.shiftl 1 sz - 1) with (Z.ones sz)
    by (rewrite Z.ones_equiv, Z.shiftl_1_l; lia).
  unfold get_set_bits. cbn [bits_value bits_size].
  apply filter_ext_in. intros i Hi. apply range_spec in Hi.
  rewrite !land_shiftr_1, Z.land_spec, Z.ones_spec_low by lia.
  now rewrite andb_true_r.
Qed.

(** X3.  A second write to the same bit replaces the first. *)
Theorem set_bit_last_write_wins (self : Bits) (i v w : Z) :
  0 <= i -> v = 0 \/ v = 1 -> w = 0 \/ w = 1 ->
  (let* s1 := set_bit self i w in set_bit s1 i v) = set_bit self i v.
Proof.
  intros Hi Hv Hw.
  destruct (set_bit_bits self i w Hi Hw) as (s1 & -> & He1 & Hs1 & Hf1 & Hb1).
  cbn [bind].
  destruct (set_bit_bits s1 i v Hi Hv) as (s2 & -> & He2 & Hs2 & Hf2 & Hb2).
  destruct (set_bit_bits self i v Hi Hv) as (s3 & -> & He3 & Hs3 & Hf3 & Hb3).
  f_equal. apply bits_eq; try congruence.
  apply Z.bits_inj'. intros j Hj. rewrite Hb2, Hb3, Hb1 by assumption.
  destruct (j =? i); reflexivity.
Qed.

(** X4.  Writes to two different bits can be done in either order. *)
Theorem set_bit_commutes (self : Bits) (i j v w : Z) :
  0 <= i -> 0 <= j -> i <> j -> v = 0 \/ v = 1 -> w = 0 \/ w = 1 ->
  (let* s1 := set_bit self i v in set_bit s1 j w)
  = (let* s1 := set_bit self j w in set_bit s1 i v).
Proof.
  intros Hi Hj Hne Hv Hw.
  destruct (set_bit_bits self i v Hi Hv) as (s1 & -> & He1 & Hs1 & Hf1 & Hb1).
  destruct (set_bit_bits self j w Hj Hw) as (s2 & -> & He2 & Hs2 & Hf2 & Hb2).
  cbn [bind].
  destruct (set_bit_bits s1 j w Hj Hw) as (s3 & -> & He3 & Hs3 & Hf3 & Hb3).
  destruct (set_bit_bits s2 i v Hi Hv) as (s4 & -> & He4 & Hs4 & Hf4 & Hb4).
  f_equal. apply bits_eq; try congruence.
  apply Z.bits_inj'. intros k Hk. rewrite Hb3, Hb4, Hb1, Hb2 by assumption.
  destruct (Z.eqb_spec k i), (Z.eqb_spec k j); try reflexivity. lia.
Qed.

(** X5.  A write below [size] keeps a value that fits in [size] bits within
    [size] bits. *)
Theorem set_bit_keeps_width (self self' : Bits) (i v : Z) :
  0 <= bits_value self < 2 ^ bits_size self ->
  0 <= i < bits_size self ->
  set_bit self i v = Ok self' ->
  0 <= bits_value self' < 2 ^ bits_size self'.
Proof.
  intros Hrange Hi Hset.
  assert (Hv : v = 0 \/ v = 1).
  { unfold set_bit in Hset. destruct (Z.eqb_spec v 0); [now left|].
    destruct (Z.eqb_spec v 1); [now right | discriminate]. }
  destruct (set_bit_bits self i v (proj1 Hi) Hv) as (s1 & E & _ & Hs1 & _ & Hb1).
  rewrite E in Hset. injection Hset as <-. rewrite Hs1.
  assert (Hmask : Z.land (bits_value s1) (Z.ones (bits_size self)) = bits_value s1).
  { apply Z.bits_inj'. intros j Hj. rewrite Z.land_spec.
    destruct (Z.lt_ge_cases j (bits_size self)).
    - rewrite Z.ones_spec_low by lia. apply andb_true_r.
    - rewrite Z.ones_spec_high, andb_false_r by lia.
      rewrite Hb1 by assumption. destruct (Z.eqb_spec j i); [lia|].
      symmetry. apply Z.bits_above_log2; [lia|].
      destruct (Z.eq_dec (bits_value self) 0) as [->|]; [cbn; lia|].
      apply Z.lt_le_trans with (bits_size self); [|assumption].
      apply Z.log2_lt_pow2; lia. }
  rewrite Z.land_ones in Hmask by lia. rewrite <- Hmask.
  apply Z.mod_pos_bound. apply Z.pow_pos_nonneg; lia.
Qed.

(** X6.  How a write shows in [get_set_bits]: the written index is listed when a
    1 was written below [size], every other index is listed as before.  A write
    at or above [size] changes nothing in the list. *)
Theorem get_set_bits_after_set_bit (self self' : Bits) (i v : Z) :
  0 <= i -> set_bit self i v = Ok self' ->
  forall j, In j (get_set_bits self') <->
            (j = i /\ v = 1 /\ i < bits_size self)
            \/ (j <> i /\ In j (get_set_bits self)).
Proof.
  intros Hi Hset j.
  assert (Hv : v = 0 \/ v = 1).
  { unfold set_bit in Hset. destruct (Z.eqb_spec v 0); [now left|].
    destruct (Z.eqb_spec v 1); [now right | discriminate]. }
  destruct (set_bit_bits self i v Hi Hv) as (s1 & E & _ & Hs1 & _ & Hb1).
  rewrite E in Hset. injection Hset as <-.
  rewrite !get_set_bits_spec, Hs1. split.
  - intros [Hj Hbit]. rewrite Hb1 in Hbit by lia.
    destruct (Z.eqb_spec j i) as [->|Hne].
    + left. apply Z.eqb_eq in Hbit. lia.
    + right. auto.
  - intros [(-> & -> & Hlt) | (Hne & Hj & Hbit)].
    + split; [lia|]. rewrite Hb1, Z.eqb_refl by lia. reflexivity.
    + split; [assumption|]. rewrite Hb1 by lia.
      destruct (Z.eqb_spec j i); [contradiction | assumption].
Qed.

(** X25.  [get_bit] reads 0 or 1 at every index [i >= 0], for negative values
    too; when the value fits in [size] bits it reads 0 at every index from
    [size] on; at a negative index it raises. *)
Theorem get_bit_is_a_bit (self : Bits) (i : Z) :
  (0 <= i ->
   exists b, get_bit self i = Ok b /\ (b = 0 \/ b = 1) /\
             (0 <= bits_value self < 2 ^ bits_size self -> bits_size self <= i -> b = 0)) /\
  (i < 0 -> get_bit self i = Raise (ValueError "negative shift count")).
Proof.
  split; [|apply get_bit_negative].
  intros Hi. exists (Z.b2z (Z.testbit (bits_value self) i)).
  split; [now apply get_bit_testbit|]. split.
  - destruct (Z.testbit (bits_value self) i); [now right | now left].
  - intros Hrange Hsize.
    destruct (Z.eq_dec (bits_value self) 0) as [->|Hnz];
      [now rewrite Z.testbit_0_l|].
    rewrite Z.bits_above_log2; [reflexivity | lia |].
    apply Z.lt_le_trans with (bits_size self); [|assumption].
    apply Z.log2_lt_pow2; lia.
Qed.

End RegistersMore.

(** ** The text of a register *)

Module ReprProps.

Import PyStr PyStrProps Registers RegistersProps RegistersRepr EnvironmentProps Notions.

Local Open Scope string_scope.

Lemma comprehension_ok {A B : Type} (f : A -> result B) (l : list A) (bs : list B) :
  comprehension f l = Ok bs <-> Forall2 (fun a b => f a = Ok b) l bs.
Proof.
  revert bs. induction l as [|a l IH]; intros bs; cbn [comprehension].
  - split.
    + intros [= <-]. constructor.
    + intros H. inversion H. reflexivity.
  - destruct (f a) as [b|e] eqn:Hfa; cbn [bind].
    + destruct (comprehension f l) as [bs'|e] eqn:Hl; cbn [bind].
      * split.
        -- intros [= <-]. constructor; [assumption | now apply IH].
        -- intros H. inversion H as [|? b0 ? bs0 Hb Hrest]; subst.
           apply IH in Hrest. congruence.
      * split; [discriminate|].
        intros H. inversion H as [|? b0 ? bs0 Hb Hrest]; subst.
        apply IH in Hrest. discriminate.
    + split; [discriminate|].
      intros H. inversion H; subst. congruence.
Qed.

Lemma get_set_values_forall2 (self : Bits) (names : list string) :
  get_set_values self = Ok names <->
  Forall2 (fun i n => exists m, find (fun m => (value m =? i)%Z) (members (bits_enum self)) = Some m
                                /\ name m = n)
          (get_set_bits self) names.
Proof.
  unfold get_set_values. rewrite comprehension_ok.
  split; intros H; (eapply Forall2_impl; [|exact H]); cbn beta; intros i n.
  - unfold enum_lookup. destruct (find _ _) as [m|]; cbn [bind]; [|discriminate].
    intros [= <-]. eauto.
  - intros (m & Hm & <-). unfold enum_lookup. now rewrite Hm.
Qed.

(** X7.  [get_set_values] returns exactly when every set bit has a member; the
    names come in increasing bit order, each the name of the first member
    with that value. *)
Theorem get_set_values_names (self : Bits) (names : list string) :
  get_set_values self = Ok names <->
  StronglySorted Z.lt (get_set_bits self) /\
  Forall2 (fun i n => exists m, find (fun m => (value m =? i)%Z) (members (bits_enum self)) = Some m
                                /\ name m = n)
          (get_set_bits self) names.
Proof.
  rewrite get_set_values_forall2. split; [|tauto].
  intros H. split; [|exact H]. apply RegistersMore.filter_sorted, RegistersMore.range_sorted.
Qed.

Lemma injective_on_nodup {A B : Type} (f : A -> B) (l : list A) (a b : A) :
  NoDup (map f l) -> In a l -> In b l -> f a = f b -> a = b.
Proof.
  induction l as [|x l IH]; cbn [map]; [contradiction|].
  intros Hnd Ha Hb Hf. inversion Hnd as [|? ? Hx Hnd']; subst.
  destruct Ha as [<-|Ha], Hb as [<-|Hb]; auto.
  - exfalso. apply Hx. rewrite Hf. now apply in_map.
  - exfalso. apply Hx. rewrite <- Hf. now apply in_map.
Qed.

Lemma Forall2_in_left {A B : Type} (R : A -> B -> Prop) (l : list A) (l' : list B) (a : A) :
  Forall2 R l l' -> In a l -> exists b, In b l' /\ R a b.
Proof.
  induction 1 as [|x y l l' Hxy _ IH]; [contradiction|].
  intros [<-|Ha].
  - exists y. split; [now left | assumption].
  - destruct (IH Ha) as (b & Hb & Hab). exists b. split; [now right | assumption].
Qed.

Lemma Forall2_in_right {A B : Type} (R : A -> B -> Prop) (l : list A) (l' : list B) (b : B) :
  Forall2 R l l' -> In b l' -> exists a, In a l /\ R a b.
Proof.
  induction 1 as [|x y l l' Hxy _ IH]; [contradiction|].
  intros [<-|Hb].
  - exists x. split; [now left | assumption].
  - destruct (IH Hb) as (a & Ha & Hab). exists a. split; [now right | assumption].
Qed.

(** X8.  Reading a bit by its member and listing the names agree: in an
    enumeration without repeated values or names, the name of a member whose
    bit lies below [size] is among the names of the set bits exactly when
    [get_value] reads 1 for it. *)
Theorem get_value_agrees_with_names (self : Bits) (m : member) (names : list string) :
  NoDup (map value (members (bits_enum self))) ->
  NoDup (map name (members (bits_enum self))) ->
  In m (members (bits_enum self)) ->
  (0 <= value m < bits_size self)%Z ->
  get_set_values self = Ok names ->
  (In (name m) names <-> get_value self (PyMember m) = Ok 1%Z).
Proof.
  intros Hvalues Hnames Hm Hrange Hok.
  apply get_set_values_forall2 in Hok.
  unfold get_value. cbn [attr_value bind].
  rewrite get_bit_testbit by lia.
  assert (Hbit : Ok (Z.b2z (Z.testbit (bits_value self) (value m))) = Ok 1%Z
                 <-> In (value m) (get_set_bits self)).
  { rewrite get_set_bits_spec.
    destruct (Z.testbit (bits_value self) (value m)); cbn [Z.b2z]; split.
    - intros _. split; [lia | reflexivity].
    - reflexivity.
    - discriminate.
    - intros [_ H]. discriminate. }
  rewrite Hbit. split.
  - intros Hin. destruct (Forall2_in_right _ _ _ _ Hok Hin) as (i & Hi & m' & Hfind & Hname).
    apply find_some in Hfind as [Hm' Hv]. apply Z.eqb_eq in Hv.
    assert (m' = m) by (eapply (injective_on_nodup name); eassumption).
    subst m'. now rewrite Hv.
  - intros Hin. destruct (Forall2_in_left _ _ _ _ Hok Hin) as (n & Hn & m' & Hfind & Hname).
    apply find_some in Hfind as [Hm' Hv]. apply Z.eqb_eq in Hv.
    assert (m' = m) by (eapply (injective_on_nodup value); eassumption).
    subst m'. now rewrite Hname.
Qed.

Lemma fold_left_names (names : list string) :
  forall pre : string,
    fold_left (fun repr val => repr ++ val ++ ", ") names pre
    = pre ++ join ", " names ++ (match names with [] => "" | _ => ", " end).
Proof.
  induction names as [|n names IH]; intros pre; cbn [fold_left].
  - cbn. now rewrite append_nil_r.
  - rewrite IH. destruct names as [|n' names'].
    + cbn [join]. now rewrite !append_assoc, append_nil_r.
    + change (join ", " (n :: n' :: names')) with (n ++ ", " ++ join ", " (n' :: names')).
      now rewrite !append_assoc.
Qed.

Lemma last_char_app_nonempty (a b : string) :
  b <> "" -> last_char (a ++ b) = last_char b.
Proof. destruct b as [|c b]; [contradiction|]. intros _. apply last_char_app_cons. Qed.

Lemma name_ok_last (n : string) :
  name_ok n = true -> n <> "" /\ exists d, last_char n = Some d /\ is_sep d = false.
Proof.
  unfold name_ok. intros H. apply andb_true_iff in H as [Hne Ht].
  destruct n as [|c n]; [discriminate|]. split; [discriminate|].
  unfold trimmed in Ht. apply andb_true_iff in Ht as [_ Hl].
  destruct (last_char (String c n)) as [d|] eqn:E.
  - exists d. split; [reflexivity | now apply negb_true_iff].
  - now apply last_char_cons in E.
Qed.

Lemma join_last (names : list string) :
  names <> [] -> Forall (fun n => name_ok n = true) names ->
  join ", " names <> "" /\ exists d, last_char (join ", " names) = Some d /\ is_sep d = false.
Proof.
  induction names as [|n names IH]; [contradiction|]. intros _ Hall.
  inversion Hall as [|? ? Hn Hrest]; subst.
  destruct names as [|n' names'].
  - cbn [join]. now apply name_ok_last.
  - change (join ", " (n :: n' :: names')) with (n ++ ", " ++ join ", " (n' :: names')).
    destruct (IH ltac:(discriminate) Hrest) as [Hne (d & Hd & Hs)].
    split.
    + destruct n; [|discriminate]. cbn. discriminate.
    + exists d. split; [|assumption].
      rewrite <- append_assoc, last_char_app_nonempty; assumption.
Qed.

(** The text built by [__repr__] once the names are known. *)
Lemma repr_text (pre : string) (d : ascii) (names : list string) :
  lstrip_by is_sep pre = pre -> last_char pre = Some d -> is_sep d = false ->
  Forall (fun n => name_ok n = true) names ->
  strip_chars ", " (fold_left (fun repr val => repr ++ val ++ ", ") names pre)
  = pre ++ join ", " names.
Proof.
  intros Hfirst Hlast Hd Hall. rewrite fold_left_names.
  assert (Hpre : exists c0 pre0, pre = String c0 pre0 /\ is_sep c0 = false).
  { destruct pre as [|c0 pre0]; [discriminate|]. exists c0, pre0. split; [reflexivity|].
    cbn [lstrip_by] in Hfirst. destruct (is_sep c0) eqn:E; [|reflexivity].
    exfalso. assert (Hlen : (String.length (lstrip_by is_sep pre0) <= String.length pre0)%nat).
    { clear. induction pre0 as [|x s IH]; cbn [lstrip_by String.length]; [lia|].
      destruct (is_sep x); cbn [String.length]; lia. }
    rewrite Hfirst in Hlen. cbn in Hlen. lia. }
  destruct Hpre as (c0 & pre0 & -> & Hc0).
  rewrite <- append_assoc.
  apply (strip_by_wrapped is_sep "" (String c0 pre0 ++ join ", " names)).
  - reflexivity.
  - destruct names; reflexivity.
  - unfold trimmed. cbn [append]. rewrite Hc0. cbn [negb andb].
    change (String c0 (pre0 ++ join ", " names)) with (String c0 pre0 ++ join ", " names).
    destruct names as [|n names].
    + cbn [join]. now rewrite append_nil_r, Hlast, Hd.
    + destruct (join_last (n :: names) ltac:(discriminate) Hall) as [Hne (e & He & Hs)].
      now rewrite last_char_app_nonempty, He, Hs.
Qed.

Lemma names_are_member_names (self : Bits) (names : list string) :
  get_set_values self = Ok names ->
  Forall (fun n => In n (map name (members (bits_enum self)))) names.
Proof.
  intros H. apply get_set_values_forall2 in H.
  induction H as [|i n l ns (m & Hm & <-) _ IH]; constructor; [|exact IH].
  apply find_some in Hm as [Hin _]. now apply in_map.
Qed.

Lemma repr_of_variant (self : Bits) (names : list string) (d : ascii) :
  let pre := strip_chars "Bits" (qualname (bits_enum self)) ++ "Register(" in
  forallb name_ok (map name (members (bits_enum self))) = true ->
  lstrip_by is_sep pre = pre -> last_char pre = Some d -> is_sep d = false ->
  get_set_values self = Ok names ->
  Bits_repr self = Ok (pre ++ join ", " names ++ ")").
Proof.
  intros pre Hmembers Hfirst Hlast Hd Hnames. unfold Bits_repr. rewrite Hnames.
  cbn [bind]. fold pre.
  rewrite (repr_text pre d names Hfirst Hlast Hd), append_assoc; [reflexivity|].
  pose proof (names_are_member_names self names Hnames) as Hin.
  rewrite forallb_forall in Hmembers.
  eapply Forall_impl; [|exact Hin]. auto.
Qed.

(** X9.  The text of a register.  [strip("Bits")] removes letters, not a suffix,
    so the final [s] of [Status] goes too: three of the four registers print
    under a shortened name. *)
Theorem repr_of_the_registers (v : Z) (names : list string) :
  (get_set_values (EventStatusEnableRegister v) = Ok names ->
   Bits_repr (EventStatusEnableRegister v)
   = Ok ("EventStatusEnableRegister(" ++ join ", " names ++ ")")) /\
  (get_set_values (EventStatusRegister v) = Ok names ->
   Bits_repr (EventStatusRegister v)
   = Ok ("EventStatuRegister(" ++ join ", " names ++ ")")) /\
  (get_set_values (InstrumentStatusByte v) = Ok names ->
   Bits_repr (InstrumentStatusByte v)
   = Ok ("InstrumentStatuRegister(" ++ join ", " names ++ ")")) /\
  (get_set_values (QuestionableStatusRegister v) = Ok names ->
   Bits_repr (QuestionableStatusRegister v)
   = Ok ("QuestionableStatuRegister(" ++ join ", " names ++ ")")).
Proof.
  repeat split; intros H;
    match type of H with
    | get_set_values ?self = _ =>
        exact (repr_of_variant self names "("%char eq_refl eq_refl eq_refl eq_refl H)
    end.
Qed.

End ReprProps.

(** ** More on the parsers *)

Module ParsersMore.

Import PyStr PyStrProps ErrorCodes Conversion ConversionProps EnvironmentProps Drain Notions.

Local Open Scope string_scope.

(** *** Pieces of a split *)

Lemma split_sep_length (sep : ascii) (s : string) :
  List.length (split_sep sep s) = S (count_char sep s).
Proof.
  induction s as [|c s IH]; cbn [split_sep count_char]; [reflexivity|].
  destruct (Ascii.eqb c sep); cbn [List.length]; [now rewrite IH|].
  destruct (split_sep sep s); cbn [List.length] in *; [discriminate | assumption].
Qed.



(** *** What stripping leaves *)



Lemma rstrip_by_keeps_last (p : ascii -> bool) (s : string) (d : ascii) :
  last_char (rstrip_by p s) = Some d -> p d = false.
Proof.
  induction s as [|c s IH]; cbn [rstrip_by]; [discriminate|].
  destruct (rstrip_by p s) as [|x r] eqn:E.
  - destruct (p c) eqn:Hc; cbn; [discriminate|]. now intros [= <-].
  - intros H. apply IH. exact H.
Qed.

Lemma rstrip_by_first (p : ascii -> bool) (c : ascii) (s : string) :
  p c = false -> exists r, rstrip_by p (String c s) = String c r.
Proof.
  intros Hc. cbn [rstrip_by]. destruct (rstrip_by p s) as [|x r].
  - rewrite Hc. now exists "".
  - now exists (String x r).
Qed.

Lemma lstrip_by_first (p : ascii -> bool) (s : string) :
  lstrip_by p s = "" \/ exists c r, lstrip_by p s = String c r /\ p c = false.
Proof.
  induction s as [|c s IH]; cbn [lstrip_by]; [now left|].
  destruct (p c) eqn:Hc; [exact IH|]. right. now exists c, s.
Qed.

Lemma strip_by_is_trimmed (p : ascii -> bool) (s : string) :
  trimmed p (rstrip_by p (lstrip_by p s)) = true.
Proof.
  destruct (lstrip_by_first p s) as [-> | (c & r & -> & Hc)]; [reflexivity|].
  destruct (rstrip_by_first p c r Hc) as [r' E].
  pose proof (rstrip_by_keeps_last p (String c r)) as Hlast. rewrite E in *.
  unfold trimmed. rewrite Hc. cbn [negb andb].
  destruct (last_char (String c r')) as [d|]; [|reflexivity].
  now rewrite (Hlast d eq_refl).
Qed.

Lemma validate_response_by_count (value : string) (expected_parts : Z) (context : string) :
  validate_response value expected_parts context
  = if (Z.of_nat (count_char "," value) + 1 =? expected_parts)%Z
    then Ok (map strip (split_sep "," value))
    else Raise (BristolParseError
                  ("Invalid " ++ context ++ " response format: " ++ repr value
                   ++ "; expected " ++ str_of_int expected_parts
                   ++ " comma-separated values")).
Proof.
  unfold validate_response.
  replace (Z.of_nat (List.length (map strip (split_sep "," value))))
    with (Z.of_nat (count_char "," value) + 1)%Z
    by (rewrite length_map, split_sep_length; lia).
  now destruct (_ =? _)%Z.
Qed.


(** *** The kinds of failure *)

Lemma py_float_raises_value_error (s : string) (e : exn) :
  py_float s = Raise e -> exists msg, e = ValueError msg.
Proof.
  unfold py_float. destruct (float_literal (strip_blank s)); [discriminate|].
  intros [= <-]. eauto.
Qed.

Lemma raises_caught_bind {A B : Type} (m : result A) (k : A -> result B) :
  raises_caught m -> (forall a, m = Ok a -> raises_caught (k a)) ->
  raises_caught (let* a := m in k a).
Proof.
  intros Hm Hk e. destruct m as [a|e0]; cbn [bind].
  - now apply Hk.
  - intros [= <-]. now apply Hm.
Qed.

Lemma raises_caught_int (s : string) : raises_caught (py_int s).
Proof. intros e H. apply py_int_raises_value_error in H as [msg ->]. exact I. Qed.

Lemma raises_caught_float (s : string) : raises_caught (py_float s).
Proof. intros e H. apply py_float_raises_value_error in H as [msg ->]. exact I. Qed.

Lemma raises_caught_item {A : Type} (l : list A) (i : nat) : raises_caught (item l i).
Proof. intros e. unfold item. destruct (nth_error l i); [discriminate|]. now intros [= <-]. Qed.

Lemma raises_caught_index0 {A : Type} (l : list A) : raises_caught (index0 l).
Proof. intros e. destruct l; [|discriminate]. now intros [= <-]. Qed.

Lemma raises_caught_validate (value : string) (n : Z) (context : string) :
  raises_caught (validate_response value n context).
Proof.
  intros e. unfold validate_response. destruct (negb _); [|discriminate].
  now intros [= <-].
Qed.

Lemma raises_caught_ok {A : Type} (a : A) : raises_caught (Ok a).
Proof. intros e. discriminate. Qed.

Lemma raises_caught_raise {A : Type} (e : exn) : caught e -> raises_caught (@Raise A e).
Proof. intros H e' [= <-]. exact H. Qed.

Lemma SCPIErrors_of_raises_value_error (code : Z) (e : exn) :
  SCPIErrors_of code = Raise e -> exists msg, e = ValueError msg.
Proof.
  unfold SCPIErrors_of. destruct (find _ _); [discriminate|]. intros [= <-]. eauto.
Qed.

Lemma split_sep1_head (val : string) :
  item (split_sep1 "," val) 0 = Ok (fst (fst (partition "," val))).
Proof.
  unfold split_sep1. destruct (partition "," val) as [[h m] t]. now destruct m.
Qed.

(** [convert_system_error] looks at the text before the first comma only. *)
Lemma convert_system_error_head (val : string) :
  convert_system_error val
  = match (let* n := py_int (strip (fst (fst (partition "," val)))) in SCPIErrors_of n) with
    | Ok e => Ok e
    | Raise _ =>
        Raise (BristolParseError ("Invalid SYSTEM:ERROR response: " ++ repr val))
    end.
Proof.
  unfold convert_system_error. rewrite split_sep1_head. cbn [bind].
  destruct (py_int _) as [n|e] eqn:Hint; cbn [bind].
  - destruct (SCPIErrors_of n) as [err|e] eqn:Hof; [reflexivity|].
    apply SCPIErrors_of_raises_value_error in Hof as [msg ->]. reflexivity.
  - apply py_int_raises_value_error in Hint as [msg ->]. reflexivity.
Qed.

(** X11.  Whatever the response, a parser that fails raises [BristolParseError]
    with its own text and the [repr] of the whole response; nothing else
    escapes. *)
Theorem parsers_raise_parse_errors_only (val : string) (e : exn) :
  (convert_environment_to_environment_data val = Raise e ->
   e = BristolParseError ("Invalid environment response format: " ++ repr val)) /\
  (convert_all_to_bristol_data val = Raise e ->
   e = BristolParseError ("Invalid ALL response format: " ++ repr val)) /\
  (convert_system_error val = Raise e ->
   e = BristolParseError ("Invalid SYSTEM:ERROR response: " ++ repr val)) /\
  (parse_system_error val = Raise e ->
   e = BristolParseError
         ("Invalid SYSTEM:ERROR response format (missing comma): " ++ repr val)
   \/ e = BristolParseError ("Invalid SYSTEM:ERROR code in response: " ++ repr val)).
Proof.
  split; [|split; [|split]].
  - unfold convert_environment_to_environment_data.
    match goal with |- match ?b with _ => _ end = _ -> _ => assert (Hb : raises_caught b) end.
    { apply raises_caught_bind; [apply raises_caught_validate|]. intros parts _.
      destruct parts as [|a [|b [|c l]]];
        try (apply raises_caught_raise; exact I).
      repeat (apply raises_caught_bind;
              [first [apply raises_caught_index0 | apply raises_caught_float]|];
              intros ? _).
      apply raises_caught_ok. }
    match goal with |- match ?b with _ => _ end = _ -> _ => destruct b as [env|e0] end;
      [discriminate|].
    specialize (Hb e0 eq_refl). destruct e0; try contradiction; now intros [= <-].
  - unfold convert_all_to_bristol_data.
    match goal with |- match ?b with _ => _ end = _ -> _ => assert (Hb : raises_caught b) end.
    { apply raises_caught_bind; [apply raises_caught_validate|]. intros parts _.
      repeat (apply raises_caught_bind;
              [first [apply raises_caught_item | apply raises_caught_int
                     | apply raises_caught_float]|];
              intros ? _).
      apply raises_caught_ok. }
    match goal with |- match ?b with _ => _ end = _ -> _ => destruct b as [w|e0] end;
      [discriminate|].
    specialize (Hb e0 eq_refl). destruct e0; try contradiction; now intros [= <-].
  - rewrite convert_system_error_head.
    destruct (let* n := py_int _ in SCPIErrors_of n); [discriminate | now intros [= <-]].
  - unfold parse_system_error. destruct (partition "," val) as [[h m] t].
    destruct m as [|c m].
    + intros [= <-]. now left.
    + destruct (py_int (strip h)) as [n|e0] eqn:Hint; [discriminate|].
      apply py_int_raises_value_error in Hint as [msg ->]. intros [= <-]. now right.
Qed.

(** X12.  A response is accepted only with the right number of commas: one for
    the environment, three for the scan record. *)
Theorem parsers_need_their_commas (val : string) :
  (forall env, convert_environment_to_environment_data val = Ok env ->
               count_char "," val = 1%nat) /\
  (forall data, convert_all_to_bristol_data val = Ok data ->
                count_char "," val = 3%nat).
Proof.
  split.
  - intros env. unfold convert_environment_to_environment_data.
    rewrite validate_response_by_count.
    destruct (Z.eqb_spec (Z.of_nat (count_char "," val) + 1) 2); [lia | discriminate].
  - intros data. unfold convert_all_to_bristol_data.
    rewrite validate_response_by_count.
    destruct (Z.eqb_spec (Z.of_nat (count_char "," val) + 1) 4); [lia | discriminate].
Qed.

(** *** The scan record *)

Lemma convert_all_fields (f0 f1 f2 f3 : string) :
  mem_char "," f0 = false -> mem_char "," f1 = false ->
  mem_char "," f2 = false -> mem_char "," f3 = false ->
  let val := f0 ++ "," ++ f1 ++ "," ++ f2 ++ "," ++ f3 in
  convert_all_to_bristol_data val
  = match py_int (strip f0), py_int (strip f1), py_float (strip f2), py_float (strip f3) with
    | Ok a, Ok b, Ok c, Ok d => Ok (mkWavemeterData a b c d)
    | _, _, _, _ =>
        Raise (BristolParseError ("Invalid ALL response format: " ++ repr val))
    end.
Proof.
  intros H0 H1 H2 H3 val. subst val.
  unfold convert_all_to_bristol_data, validate_response.
  repeat change ("," ++ ?x) with (String "," x).
  rewrite (split_sep_found "," f0 _ H0), (split_sep_found "," f1 _ H1),
    (split_sep_found "," f2 _ H2), (split_sep_missing "," f3 H3).
  cbn [map List.length Z.of_nat Pos.of_succ_nat Pos.succ Z.eqb Pos.eqb negb bind
       item nth_error].
  destruct (py_int (strip f0)) as [a|e] eqn:E0; cbn [bind];
    [|apply py_int_raises_value_error in E0 as [msg ->]; reflexivity].
  destruct (py_int (strip f1)) as [b|e] eqn:E1; cbn [bind];
    [|apply py_int_raises_value_error in E1 as [msg ->]; reflexivity].
  destruct (py_float (strip f2)) as [c|e] eqn:E2; cbn [bind];
    [|apply py_float_raises_value_error in E2 as [msg ->]; reflexivity].
  destruct (py_float (strip f3)) as [d|e] eqn:E3; cbn [bind];
    [reflexivity | apply py_float_raises_value_error in E3 as [msg ->]; reflexivity].
Qed.

(** X13.  The scan record is read from four fields exactly when [int] reads the
    first two and [float] the last two, each trimmed; the record holds the
    four values in that order. *)
Theorem convert_all_reads_four_fields (f0 f1 f2 f3 : string) (data : WavemeterData) :
  mem_char "," f0 = false -> mem_char "," f1 = false ->
  mem_char "," f2 = false -> mem_char "," f3 = false ->
  convert_all_to_bristol_data (f0 ++ "," ++ f1 ++ "," ++ f2 ++ "," ++ f3) = Ok data <->
  py_int (strip f0) = Ok (scan_index data) /\
  py_int (strip f1) = Ok (instrument_status data) /\
  py_float (strip f2) = Ok (wavelength data) /\
  py_float (strip f3) = Ok (power data).
Proof.
  intros H0 H1 H2 H3. rewrite (convert_all_fields f0 f1 f2 f3 H0 H1 H2 H3).
  destruct (py_int (strip f0)) as [a|e0]; [|split; [discriminate | intros ([=] & _)]].
  destruct (py_int (strip f1)) as [b|e1]; [|split; [discriminate | intros (_ & [=] & _)]].
  destruct (py_float (strip f2)) as [c|e2];
    [|split; [discriminate | intros (_ & _ & [=] & _)]].
  destruct (py_float (strip f3)) as [d|e3];
    [|split; [discriminate | intros (_ & _ & _ & [=])]].
  split.
  - intros [= <-]. repeat split.
  - destruct data as [a' b' c' d']. cbn. intros ([= ->] & [= ->] & [= ->] & [= ->]).
    reflexivity.
Qed.

(** *** The two readers of an error-queue line *)

Lemma parse_system_error_ok (raw : string) (code : Z) (message : string) :
  parse_system_error raw = Ok (code, message) ->
  py_int (strip (fst (fst (partition "," raw)))) = Ok code.
Proof.
  unfold parse_system_error. destruct (partition "," raw) as [[h m] t]. cbn [fst].
  destruct m; [discriminate|].
  destruct (py_int (strip h)) as [n|e]; [now intros [= -> _]|].
  destruct e; discriminate.
Qed.

(** X14.  On a line that [parse_system_error] accepts, [convert_system_error]
    and the drain loop see the same code.  A code outside the enumeration is a
    [BristolParseError] for the first and an [SCPICommandError] for the
    second. *)
Theorem system_error_readers_agree (raw : string) (code : Z) (message : string) :
  parse_system_error raw = Ok (code, message) ->
  match SCPIErrors_of code with
  | Ok error =>
      convert_system_error raw = Ok error /\ read_entry raw = Ok (error, message)
  | Raise _ =>
      convert_system_error raw
      = Raise (BristolParseError ("Invalid SYSTEM:ERROR response: " ++ repr raw)) /\
      read_entry raw
      = Raise (SCPICommandError ("Unknown SCPI error code: " ++ str_of_int code))
  end.
Proof.
  intros Hparse. pose proof (parse_system_error_ok raw code message Hparse) as Hint.
  rewrite convert_system_error_head, Hint. cbn [bind].
  unfold read_entry. rewrite Hparse. cbn [bind].
  destruct (SCPIErrors_of code) as [error|e] eqn:Hof; [split; reflexivity|].
  apply SCPIErrors_of_raises_value_error in Hof as [msg ->]. split; reflexivity.
Qed.

(** X15.  [convert_system_error] needs no comma: a line without one is read as
    the same line followed by a comma and any text, while [parse_system_error]
    rejects it. *)
Theorem convert_system_error_needs_no_comma (a b : string) (error : SCPIErrors) :
  mem_char "," a = false ->
  (convert_system_error a = Ok error <->
   convert_system_error (a ++ String "," b) = Ok error) /\
  parse_system_error a
  = Raise (BristolParseError
             ("Invalid SYSTEM:ERROR response format (missing comma): " ++ repr a)).
Proof.
  intros Ha. split.
  - rewrite !convert_system_error_head, (partition_missing "," a Ha),
      (partition_found "," a b Ha). cbn [fst].
    destruct (let* n := py_int (strip a) in SCPIErrors_of n); split; congruence.
  - unfold parse_system_error. now rewrite (partition_missing "," a Ha).
Qed.


(** X26.  The message that [parse_system_error] returns never starts or ends
    with a double quote; the code is what [int] reads before the first
    comma. *)
Theorem parse_system_error_message_unquoted (raw : string) (code : Z) (message : string) :
  parse_system_error raw = Ok (code, message) ->
  trimmed is_quote message = true /\
  mem_char "," raw = true /\
  py_int (strip (fst (fst (partition "," raw)))) = Ok code.
Proof.
  intros H. split; [|split].
  - unfold parse_system_error in H. destruct (partition "," raw) as [[h m] t].
    destruct m; [discriminate|].
    destruct (py_int (strip h)) as [n|e]; [|destruct e; discriminate].
    injection H as _ <-. apply (strip_by_is_trimmed is_quote).
  - destruct (mem_char "," raw) eqn:E; [reflexivity|].
    unfold parse_system_error in H. rewrite (partition_missing "," raw E) in H.
    discriminate.
  - exact (parse_system_error_ok raw code message H).
Qed.

End ParsersMore.

(** ** The unit of an environment field *)

Module EnvMore.

Import PyStr PyStrProps Conversion EnvironmentProps Notions.

Local Open Scope string_scope.

Lemma rstrip_by_after (p : ascii -> bool) (a : string) (c : ascii) (b : string) :
  p c = false ->
  rstrip_by p ((a ++ String c "") ++ b) = (a ++ String c "") ++ rstrip_by p b.
Proof.
  intros Hc. induction a as [|x a IH]; cbn [append rstrip_by].
  - destruct (rstrip_by p b); [now rewrite Hc | reflexivity].
  - cbn [append] in IH. rewrite IH. destruct a; reflexivity.
Qed.

Lemma rstrip_by_head (p : ascii -> bool) (w : ascii) (t : string) :
  rstrip_by p (String w t) = "" \/ exists r, rstrip_by p (String w t) = String w r.
Proof.
  cbn [rstrip_by]. destruct (rstrip_by p t) as [|x r].
  - destruct (p w); [now left | right; now exists ""].
  - right. now exists (String x r).
Qed.

Lemma token_last (tok : string) :
  is_token tok = true ->
  exists a c, tok = a ++ String c "" /\ is_space c = false.
Proof.
  intros Htok. pose proof Htok as H. unfold is_token in H.
  apply andb_true_iff in H as [Hne Hns].
  destruct tok as [|x tok]; [discriminate|].
  destruct (last_char (String x tok)) as [d|] eqn:Hd; [|now apply last_char_cons in Hd].
  destruct (last_char_snoc _ _ Hd) as [a Ha]. exists a, d. split; [assumption|].
  pose proof (all_chars_last _ _ _ Hns Hd) as Hn. now apply negb_true_iff in Hn.
Qed.

(** The first word of a field is its number, whatever follows the number
    after white space. *)
Lemma field_first_word_any (wa tok tail : string) :
  all_space wa = true -> is_token tok = true -> starts_blank tail = true ->
  index0 (split_ws (strip (wa ++ tok ++ tail))) = Ok tok.
Proof.
  intros Hwa Htok Htail. unfold strip.
  rewrite lstrip_by_all by assumption.
  assert (Hl : lstrip_by is_space (tok ++ tail) = tok ++ tail).
  { pose proof Htok as H. unfold is_token in H. apply andb_true_iff in H as [Hne Hns].
    destruct tok as [|c tok]; [discriminate|]. cbn [all_chars] in Hns.
    apply andb_true_iff in Hns as [Hc _]. apply negb_true_iff in Hc.
    cbn [append lstrip_by]. now rewrite Hc. }
  rewrite Hl. destruct (token_last tok Htok) as (a & c & Etok & Hc).
  rewrite Etok at 1. rewrite rstrip_by_after by assumption. rewrite <- Etok.
  destruct tail as [|w t].
  - cbn [rstrip_by]. rewrite append_nil_r, split_ws_single by assumption. reflexivity.
  - cbn [starts_blank] in Htail.
    destruct (rstrip_by_head is_space w t) as [-> | [r ->]].
    + rewrite append_nil_r, split_ws_single by assumption. reflexivity.
    + now rewrite split_ws_token.
Qed.

(** X17.  The unit of a field is never looked at: after the number and white
    space any text without a comma may follow, or none. *)
Theorem environment_unit_is_not_checked
  (wa t_tok ta wd p_tok tb : string) (t p : spec_float) :
  is_token t_tok = true -> mem_char "," t_tok = false ->
  is_token p_tok = true -> mem_char "," p_tok = false ->
  all_space wa = true -> starts_blank ta = true -> mem_char "," ta = false ->
  all_space wd = true -> starts_blank tb = true -> mem_char "," tb = false ->
  py_float t_tok = Ok t -> py_float p_tok = Ok p ->
  convert_environment_to_environment_data
    ((wa ++ t_tok ++ ta) ++ "," ++ (wd ++ p_tok ++ tb))
  = Ok (mkEnvironment t p).
Proof.
  intros Ht Htc Hp Hpc Hwa Hta Htac Hwd Htb Htbc Hft Hfp.
  assert (HA : mem_char "," (wa ++ t_tok ++ ta) = false).
  { now rewrite !mem_char_app, (all_space_no_comma wa Hwa), Htc, Htac. }
  assert (HB : mem_char "," (wd ++ p_tok ++ tb) = false).
  { now rewrite !mem_char_app, (all_space_no_comma wd Hwd), Hpc, Htbc. }
  unfold convert_environment_to_environment_data, validate_response.
  change ("," ++ (wd ++ p_tok ++ tb)) with (String "," (wd ++ p_tok ++ tb)).
  rewrite (split_sep_found "," _ _ HA), (split_sep_missing "," _ HB).
  cbn [map List.length Z.of_nat Pos.of_succ_nat Pos.succ Z.eqb Pos.eqb negb bind].
  rewrite (field_first_word_any wa t_tok ta Hwa Ht Hta). cbn [bind].
  rewrite Hft. cbn [bind].
  rewrite (field_first_word_any wd p_tok tb Hwd Hp Htb). cbn [bind].
  rewrite Hfp. reflexivity.
Qed.

Lemma environment_unit_is_not_checked_witness :
  convert_environment_to_environment_data "25.4 F,755.2"
  = Ok (mkEnvironment (S754_finite false 7149464408450662 (-48))
                      (S754_finite false 6642809450371482 (-43))).
Proof.
  apply (environment_unit_is_not_checked "" "25.4" " F" "" "755.2" ""); reflexivity.
Defined.

End EnvMore.

(** ** Integers as text *)

Module IntProps.

Import PyStr PyStrProps Conversion EnvironmentProps.

Local Open Scope string_scope.
Local Open Scope Z_scope.

Lemma of_lu_rev_cons (f : Decimal.uint -> Decimal.uint) (k : N) (d : Decimal.uint) :
  (forall d', Decimal.revapp (f d) d' = Decimal.revapp d (f d')) ->
  Unsigned.of_lu (f Decimal.Nil) = k ->
  Unsigned.of_lu (Decimal.rev (f d))
  = (Unsigned.of_lu (Decimal.rev d) + k * 10 ^ Unsigned.usize d)%N.
Proof.
  intros Hf Hk. unfold Decimal.rev at 1. rewrite Hf, Unsigned.of_lu_revapp, Hk.
  reflexivity.
Qed.

Lemma int_digits_uint (d : Decimal.uint) :
  forall acc : Z,
    int_digits acc true (NilEmpty.string_of_uint d)
    = Some (acc * 10 ^ Z.of_N (Unsigned.usize d)
            + Z.of_N (Unsigned.of_lu (Decimal.rev d))).
Proof.
  induction d as [|d IH|d IH|d IH|d IH|d IH|d IH|d IH|d IH|d IH|d IH]; intros acc;
    [cbn; f_equal; lia| ..];
    cbn [NilEmpty.string_of_uint int_digits];
    (change (is_digit _) with true; cbn match; rewrite IH; f_equal;
     match goal with
     | |- context [Decimal.rev (?f d)] =>
         rewrite (of_lu_rev_cons f (Unsigned.of_lu (f Decimal.Nil)) d
                    (fun _ => eq_refl) eq_refl)
     end;
     cbn [Unsigned.usize]; rewrite N2Z.inj_add, N2Z.inj_mul, N2Z.inj_pow, N2Z.inj_succ,
       Z.pow_succ_r by lia;
     change (Z.of_N 10) with 10;
     match goal with
     | |- context [digit_val ?c] =>
         let v := eval vm_compute in (digit_val c) in change (digit_val c) with v
     end;
     match goal with
     | |- context [Z.of_N (Unsigned.of_lu ?u)] =>
         match u with
         | Decimal.rev _ => fail 1
         | _ => let v := eval vm_compute in (Z.of_N (Unsigned.of_lu u)) in
                change (Z.of_N (Unsigned.of_lu u)) with v
         end
     end;
     ring).
Qed.

Lemma int_literal_uint (d : Decimal.uint) :
  d <> Decimal.Nil ->
  int_digits 0 false (NilEmpty.string_of_uint d) = Some (Z.of_N (Pos.of_uint d)).
Proof.
  intros Hd. rewrite Unsigned.of_uint_alt.
  destruct d; [contradiction| ..]; cbn [NilEmpty.string_of_uint int_digits];
    change (is_digit _) with true; cbn match; rewrite int_digits_uint; f_equal;
    match goal with
    | |- context [Decimal.rev (?f ?d)] =>
        rewrite (of_lu_rev_cons f (Unsigned.of_lu (f Decimal.Nil)) d
                   (fun _ => eq_refl) eq_refl)
    end;
    rewrite N2Z.inj_add, N2Z.inj_mul, N2Z.inj_pow;
    change (Z.of_N 10) with 10;
    match goal with
    | |- context [digit_val ?c] =>
        let v := eval vm_compute in (digit_val c) in change (digit_val c) with v
    end;
    match goal with
    | |- context [Z.of_N (Unsigned.of_lu ?u)] =>
        match u with
        | Decimal.rev _ => fail 1
        | _ => let v := eval vm_compute in (Z.of_N (Unsigned.of_lu u)) in
               change (Z.of_N (Unsigned.of_lu u)) with v
        end
    end;
    ring.
Qed.

Lemma to_uint_not_nil (p : positive) : Pos.to_uint p <> Decimal.Nil.
Proof.
  intros H. pose proof (DecimalPos.Unsigned.of_to p) as E. rewrite H in E. discriminate.
Qed.

Lemma int_literal_str_of_int (n : Z) : int_literal (str_of_int n) = Some n.
Proof.
  unfold str_of_int, int_literal. destruct n as [|p|p]; cbn [Z.to_int NilZero.string_of_int].
  - reflexivity.
  - unfold NilZero.string_of_uint.
    pose proof (to_uint_not_nil p) as Hn.
    destruct (Pos.to_uint p) eqn:E; [contradiction| ..];
      rewrite <- E; 
      (replace (split_sign (NilEmpty.string_of_uint (Pos.to_uint p)))
         with (false, NilEmpty.string_of_uint (Pos.to_uint p)) by (rewrite E; reflexivity));
      rewrite int_literal_uint, DecimalPos.Unsigned.of_to by (now rewrite E); reflexivity.
  - unfold NilZero.string_of_uint.
    pose proof (to_uint_not_nil p) as Hn.
    change (split_sign (String "-" ?s)) with (true, s).
    destruct (Pos.to_uint p) eqn:E; [contradiction| ..];
      rewrite <- E; cbn [split_sign Ascii.eqb];
      rewrite int_literal_uint, DecimalPos.Unsigned.of_to by (now rewrite E); reflexivity.
Qed.


Lemma uint_digits_no_space (d : Decimal.uint) :
  all_chars (fun c => negb (is_space c)) (NilEmpty.string_of_uint d) = true.
Proof. induction d; cbn [NilEmpty.string_of_uint all_chars]; [reflexivity | ..]; exact IHd. Qed.

Lemma str_of_int_is_token (n : Z) : is_token (str_of_int n) = true.
Proof.
  unfold str_of_int, is_token.
  destruct n as [|p|p]; cbn [Z.to_int NilZero.string_of_int]; [reflexivity | |].
  - unfold NilZero.string_of_uint. pose proof (to_uint_not_nil p) as Hn.
    pose proof (uint_digits_no_space (Pos.to_uint p)) as Hd.
    destruct (Pos.to_uint p); [contradiction | ..]; exact Hd.
  - unfold NilZero.string_of_uint. pose proof (to_uint_not_nil p) as Hn.
    pose proof (uint_digits_no_space (Pos.to_uint p)) as Hd.
    destruct (Pos.to_uint p); [contradiction | ..]; exact Hd.
Qed.

Lemma blank_not_in_run (c : ascii) :
  is_blank c = true -> is_digit c || Ascii.eqb c "_" = false.
Proof.
  destruct c as [[] [] [] [] [] [] [] []]; vm_compute; intros H;
    first [reflexivity | discriminate H].
Qed.

Lemma digit_run_uint (d : Decimal.uint) (wb : string) :
  all_chars is_blank wb = true ->
  digit_run (NilEmpty.string_of_uint d ++ wb) = NilEmpty.string_of_uint d.
Proof.
  intros Hwb.
  induction d as [|d IH|d IH|d IH|d IH|d IH|d IH|d IH|d IH|d IH|d IH];
    [|cbn [NilEmpty.string_of_uint append digit_run];
      change (is_digit _ || _) with true; cbn match; now rewrite IH ..].
  cbn [NilEmpty.string_of_uint append]. destruct wb as [|c wb]; [reflexivity|].
  cbn [all_chars] in Hwb. apply andb_true_iff in Hwb as [Hc _].
  cbn [digit_run]. now rewrite (blank_not_in_run c Hc).
Qed.

Lemma count_digits_uint (d : Decimal.uint) :
  count_digits (NilEmpty.string_of_uint d) = Z.of_N (Unsigned.usize d).
Proof.
  induction d as [|d IH|d IH|d IH|d IH|d IH|d IH|d IH|d IH|d IH|d IH];
    [reflexivity|
     cbn [NilEmpty.string_of_uint count_digits Unsigned.usize];
     change (is_digit _) with true; cbn match; rewrite IH; lia ..].
Qed.

(** A numeral without a leading zero is at least the power of ten that its
    length gives. *)
Lemma of_lu_rev_lower (d : Decimal.uint) :
  Decimal.unorm d = d -> d <> Decimal.zero -> d <> Decimal.Nil ->
  (10 ^ (Unsigned.usize d - 1) <= Unsigned.of_lu (Decimal.rev d))%N.
Proof.
  intros Hnorm Hzero Hnil.
  destruct d as [|d|d|d|d|d|d|d|d|d|d]; [contradiction| |
    match goal with
    | |- context [Decimal.rev (?f d)] =>
        rewrite (of_lu_rev_cons f (Unsigned.of_lu (f Decimal.Nil)) d
                   (fun _ => eq_refl) eq_refl)
    end;
    cbn [Unsigned.usize]; rewrite N.sub_1_r, N.pred_succ;
    match goal with
    | |- context [Unsigned.of_lu ?u] =>
        match u with
        | Decimal.rev _ => fail 1
        | _ => let v := eval vm_compute in (Unsigned.of_lu u) in
               change (Unsigned.of_lu u) with v
        end
    end; nia ..].
  exfalso. destruct (Decimal.uint_eq_dec d Decimal.Nil) as [->|Hd];
    [now apply Hzero|].
  change (Decimal.unorm (Decimal.D0 d)) with (Decimal.unorm d) in Hnorm.
  pose proof (DecimalFacts.nb_digits_unorm d Hd) as Hle.
  rewrite Hnorm in Hle. cbn [Decimal.nb_digits] in Hle. lia.
Qed.

Lemma usize_to_uint (p : positive) (k : Z) :
  Z.pos p < 10 ^ k -> Z.of_N (Unsigned.usize (Pos.to_uint p)) <= k.
Proof.
  intros Hp.
  assert (Hk : 0 <= k).
  { destruct (Z_lt_le_dec k 0) as [Hneg|]; [|assumption].
    rewrite Z.pow_neg_r in Hp by assumption. lia. }
  pose proof (DecimalPos.Unsigned.of_to p) as Hof.
  pose proof (DecimalPos.Unsigned.to_of (Pos.to_uint p)) as Hto.
  rewrite Hof in Hto. change (N.to_uint (N.pos p)) with (Pos.to_uint p) in Hto.
  pose proof (of_lu_rev_lower (Pos.to_uint p) (eq_sym Hto)
                (DecimalPos.Unsigned.to_uint_nonzero p) (to_uint_not_nil p)) as Hlow.
  rewrite <- DecimalPos.Unsigned.of_uint_alt, Hof in Hlow.
  apply N2Z.inj_le in Hlow. rewrite N2Z.inj_pow in Hlow.
  change (Z.of_N 10) with 10 in Hlow. change (Z.of_N (N.pos p)) with (Z.pos p) in Hlow.
  destruct (Z_lt_le_dec k (Z.of_N (Unsigned.usize (Pos.to_uint p)))) as [Hlt|]; [|assumption].
  exfalso.
  assert (10 ^ k <= 10 ^ Z.of_N (Unsigned.usize (Pos.to_uint p) - 1)).
  { apply Z.pow_le_mono_r; lia. }
  lia.
Qed.

(** What [str] prints: a minus sign for a negative number, then a numeral
    whose length is bounded by the size of the number. *)
Lemma str_of_int_digits (n : Z) :
  exists d : Decimal.uint,
    d <> Decimal.Nil /\
    str_of_int n = (if n <? 0 then "-" else "") ++ NilEmpty.string_of_uint d /\
    (forall k, 0 < k -> Z.abs n < 10 ^ k -> Z.of_N (Unsigned.usize d) <= k).
Proof.
  unfold str_of_int. destruct n as [|p|p]; cbn [Z.to_int NilZero.string_of_int Z.abs].
  - exists Decimal.zero. split; [discriminate|]. split; [reflexivity|].
    intros k Hk _. cbn. lia.
  - exists (Pos.to_uint p). split; [apply to_uint_not_nil|]. split.
    + unfold NilZero.string_of_uint. pose proof (to_uint_not_nil p) as Hn.
      destruct (Pos.to_uint p); [contradiction | reflexivity ..].
    + intros k _. apply usize_to_uint.
  - exists (Pos.to_uint p). split; [apply to_uint_not_nil|]. split.
    + unfold NilZero.string_of_uint. pose proof (to_uint_not_nil p) as Hn.
      destruct (Pos.to_uint p); [contradiction | reflexivity ..].
    + intros k _. apply usize_to_uint.
Qed.

(** The run of digits that [int] scans in [str(n)], blanks around it. *)
Lemma digit_run_str_of_int (d : Decimal.uint) (neg : bool) (wa wb : string) :
  d <> Decimal.Nil ->
  all_chars is_blank wa = true -> all_chars is_blank wb = true ->
  digit_run (snd (split_sign (lstrip_by is_blank
     (wa ++ ((if neg then "-" else "") ++ NilEmpty.string_of_uint d) ++ wb))))
  = NilEmpty.string_of_uint d.
Proof.
  intros Hd Hwa Hwb. rewrite (lstrip_by_all is_blank wa _ Hwa).
  transitivity (digit_run (NilEmpty.string_of_uint d ++ wb));
    [|now apply digit_run_uint].
  f_equal. destruct neg.
  - reflexivity.
  - cbn [append].
    destruct d; [contradiction | reflexivity ..].
Qed.

(** X18.  [to_int] reads back every integer of at most 4300 digits as [str]
    prints it, also with blanks, a line end for one, around the digits. *)
Theorem to_int_reads_str (n : Z) (wa wb : string) :
  all_chars is_blank wa = true -> all_chars is_blank wb = true ->
  Z.abs n < 10 ^ int_max_str_digits ->
  to_int (wa ++ str_of_int n ++ wb) = Ok n.
Proof.
  intros Hwa Hwb Hn. unfold to_int, py_int.
  destruct (str_of_int_digits n) as (d & Hd & E & Hsize).
  assert (Hrun : digit_run (snd (split_sign (lstrip_by is_blank
                   (wa ++ str_of_int n ++ wb)))) = NilEmpty.string_of_uint d).
  { rewrite E. now apply digit_run_str_of_int. }
  rewrite Hrun, (int_literal_uint d Hd), count_digits_uint.
  assert (Hle : Z.of_N (Unsigned.usize d) <= int_max_str_digits).
  { apply Hsize; [reflexivity | exact Hn]. }
  apply Z.ltb_ge in Hle. rewrite Hle.
  unfold strip_blank.
  rewrite (strip_by_wrapped is_blank wa (str_of_int n) wb Hwa Hwb)
    by (apply token_trimmed; [exact is_blank_is_space | apply str_of_int_is_token]).
  now rewrite int_literal_str_of_int.
Qed.

Lemma to_int_reads_str_witness :
  to_int (" " ++ str_of_int (-230) ++ String (ascii_of_N 10) "") = Ok (-230).
Proof.
  apply (to_int_reads_str (-230) " " (String (ascii_of_N 10) ""));
    [reflexivity | reflexivity |].
  apply Z.lt_le_trans with (10 ^ 3); [reflexivity|].
  apply Z.pow_le_mono_r; [lia | discriminate].
Defined.

End IntProps.

(** ** More on the drain *)

Module DrainMore.

Import PyStr ErrorCodes Conversion Drain DrainProps.

Local Open Scope list_scope.

Section WithInstrument.

Variable St : Type.
Variable system_error : St -> result string * St.

Lemma drain_loop_break (n : nat) :
  forall (acc : list entry) (s : St) (entries : list entry) (s' : St),
    drain_loop St system_error n acc s = (Ok (Break entries), s') ->
    exists pre msg,
      entries = acc ++ pre ++ [(NO_ERROR, msg)] /\
      Forall (fun e => fst e <> NO_ERROR) pre /\
      (List.length pre < n)%nat.
Proof.
  induction n as [|n IH]; intros acc s entries s'; cbn [drain_loop]; [discriminate|].
  destruct (system_error s) as [r s1].
  destruct (let* raw := r in read_entry raw) as [[err m]|e]; [|discriminate].
  destruct (error_eqb err NO_ERROR) eqn:E.
  - intros [= <- <-]. apply error_eqb_eq in E as ->.
    exists [], m. repeat split; [constructor | cbn; lia].
  - intros H. apply IH in H as (pre & msg & -> & Hpre & Hlen).
    exists ((err, m) :: pre), msg. repeat split.
    + now rewrite <- app_assoc.
    + constructor; [|exact Hpre]. cbn. intros ->. discriminate.
    + cbn. lia.
Qed.

(** X19.  Whenever the drain returns, the list ends with its only [NO_ERROR]
    entry and has at most [max_reads] entries; with [raise_on_error] set it is
    that entry alone. *)
Theorem drain_result_shape
  (raise_on_error : bool) (max_reads : Z) (s s' : St) (entries : list entry) :
  drain_error_queue St system_error raise_on_error max_reads s = (Ok entries, s') ->
  exists pre msg,
    entries = pre ++ [(NO_ERROR, msg)] /\
    Forall (fun e => fst e <> NO_ERROR) pre /\
    (Z.of_nat (List.length entries) <= max_reads)%Z /\
    (raise_on_error = true -> pre = []).
Proof.
  unfold drain_error_queue. destruct (Z.leb_spec max_reads 0); [discriminate|].
  destruct (drain_loop St system_error (Z.to_nat max_reads) [] s)
    as [[[found|found]|e] s1] eqn:Hloop; try discriminate.
  apply drain_loop_break in Hloop as (pre & msg & -> & Hpre & Hlen). cbn [app].
  assert (Hshape : forall l, l = pre ++ [(NO_ERROR, msg)] ->
             (Z.of_nat (List.length l) <= max_reads)%Z).
  { intros l ->. rewrite length_app. cbn. lia. }
  destruct raise_on_error.
  - pose proof (active_errors_of_drained pre msg Hpre) as Hf.
    unfold entry in Hf |- *. rewrite Hf.
    destruct pre as [|p pre]; [|discriminate].
    intros [= <- <-]. exists [], msg. repeat split; auto.
  - intros [= <- <-]. exists pre, msg. repeat split; auto. discriminate.
Qed.

Lemma drain_loop_failure (es : list entry) :
  forall (n : nat) (acc : list entry) (s : St) (raws : list string) (s1 s2 : St)
         (r : result string) (e : exn),
    reads St system_error s raws s1 ->
    Forall2 (fun raw en => read_entry raw = Ok en) raws es ->
    Forall (fun en => fst en <> NO_ERROR) es ->
    system_error s1 = (r, s2) ->
    (let* raw := r in read_entry raw) = Raise e ->
    (List.length raws < n)%nat ->
    drain_loop St system_error n acc s = (Raise e, s2).
Proof.
  induction es as [|en es IH]; intros n acc s raws s1 s2 r e Hreads Hparse Hes Hq Hfail Hlen.
  - inversion Hparse; subst. inversion Hreads; subst.
    destruct n as [|n]; [cbn in Hlen; lia|].
    cbn [drain_loop]. rewrite Hq, Hfail. reflexivity.
  - inversion Hparse as [|raw e0 raws0 es0 Hraw Hrest]; subst.
    inversion Hreads as [|? ? s0 ? ? Hq0 Hnext]; subst.
    inversion Hes as [|? ? Hen Hes']; subst.
    destruct n as [|n]; [cbn in Hlen; lia|].
    cbn [drain_loop]. rewrite Hq0. cbn [bind]. rewrite Hraw.
    destruct en as [err m]. cbn [fst] in Hen.
    rewrite (error_eqb_no_error _ Hen).
    apply (IH n _ s0 raws0 s1 s2 r e Hnext Hrest Hes' Hq Hfail).
    cbn in Hlen. lia.
Qed.

(** X20.  The first read that fails ends the drain: after well-formed entries
    none of which is [NO_ERROR], a query that raises, a line that does not
    parse or a code that is unknown makes the drain raise that very error, with
    no further query, whatever [raise_on_error] is. *)
Theorem drain_stops_at_first_failure
  (raise_on_error : bool) (max_reads : Z) (s s1 s2 : St)
  (raws : list string) (es : list entry) (r : result string) (e : exn) :
  reads St system_error s raws s1 ->
  Forall2 (fun raw en => read_entry raw = Ok en) raws es ->
  Forall (fun en => fst en <> NO_ERROR) es ->
  system_error s1 = (r, s2) ->
  (let* raw := r in read_entry raw) = Raise e ->
  (Z.of_nat (List.length raws) < max_reads)%Z ->
  drain_error_queue St system_error raise_on_error max_reads s = (Raise e, s2).
Proof.
  intros Hreads Hparse Hes Hq Hfail Hlen. unfold drain_error_queue.
  destruct (Z.leb_spec max_reads 0); [lia|].
  rewrite (drain_loop_failure es (Z.to_nat max_reads) [] s raws s1 s2 r e
             Hreads Hparse Hes Hq Hfail) by lia.
  reflexivity.
Qed.

End WithInstrument.

Lemma drain_result_shape_witness :
  exists pre msg,
    [(INVALID_CHARACTER, "Invalid character"%string); (NO_ERROR, "No error"%string)]
    = pre ++ [(NO_ERROR, msg)] /\
    Forall (fun e => fst e <> NO_ERROR) pre /\
    (Z.of_nat 2 <= 32)%Z /\ (false = true -> pre = []).
Proof.
  apply (drain_result_shape _ scripted false 32 two_entries ["never read"%string]).
  reflexivity.
Defined.

Lemma drain_stops_at_first_failure_witness :
  drain_error_queue _ scripted true 32
    [ ("-101, " ++ quoted "Invalid character")%string; "garbage"%string;
      ("0, " ++ quoted "No error")%string ]
  = (Raise (BristolParseError
              "Invalid SYSTEM:ERROR response format (missing comma): 'garbage'"),
     [ ("0, " ++ quoted "No error")%string ]).
Proof.
  apply (drain_stops_at_first_failure _ scripted true 32 _
           [ "garbage"%string; ("0, " ++ quoted "No error")%string ] _
           [ ("-101, " ++ quoted "Invalid character")%string ]
           [ (INVALID_CHARACTER, "Invalid character"%string) ]
           (Ok "garbage"%string)).
  - repeat (econstructor; try reflexivity).
  - repeat constructor.
  - repeat constructor. discriminate.
  - reflexivity.
  - reflexivity.
  - cbn. lia.
Defined.

End DrainMore.

(** ** The older parsers *)

Module LegacyProps.

Import PyStr PyStrProps Conversion ConversionProps EnvironmentProps ParsersMore Notions.

Local Open Scope string_scope.

(** X21.  The older scan-record parser never looks past the fourth field, where the
    current one rejects a fifth. *)
Theorem legacy_all_ignores_surplus_fields (f0 f1 f2 f3 rest : string) :
  mem_char "," f0 = false -> mem_char "," f1 = false ->
  mem_char "," f2 = false -> mem_char "," f3 = false ->
  Legacy.convert_all_to_bristol_data
    (f0 ++ "," ++ f1 ++ "," ++ f2 ++ "," ++ f3 ++ "," ++ rest)
  = Legacy.convert_all_to_bristol_data (f0 ++ "," ++ f1 ++ "," ++ f2 ++ "," ++ f3) /\
  convert_all_to_bristol_data (f0 ++ "," ++ f1 ++ "," ++ f2 ++ "," ++ f3 ++ "," ++ rest)
  = Raise (BristolParseError
             ("Invalid ALL response format: "
              ++ repr (f0 ++ "," ++ f1 ++ "," ++ f2 ++ "," ++ f3 ++ "," ++ rest))).
Proof.
  intros H0 H1 H2 H3. split.
  - unfold Legacy.convert_all_to_bristol_data.
    repeat change ("," ++ ?x) with (String "," x).
    rewrite !(split_sep_found "," f0 _ H0), !(split_sep_found "," f1 _ H1),
      !(split_sep_found "," f2 _ H2), (split_sep_found "," f3 _ H3),
      (split_sep_missing "," f3 H3).
    destruct (split_sep "," rest); reflexivity.
  - unfold convert_all_to_bristol_data. rewrite validate_response_by_count.
    repeat change ("," ++ ?x) with (String "," x).
    assert (Hcount : forall a b, mem_char "," a = false ->
               count_char "," (a ++ String "," b) = S (count_char "," b)).
    { intros a b Ha. induction a as [|c a IH]; cbn [append count_char].
      - now rewrite Ascii.eqb_refl.
      - cbn [mem_char] in Ha. apply orb_false_iff in Ha as [Hc Ha].
        rewrite Ascii.eqb_sym in Hc. now rewrite Hc, IH. }
    rewrite !Hcount by assumption.
    destruct (Z.eqb_spec (Z.of_nat (S (S (S (S (count_char "," rest))))) + 1) 4);
      [lia | reflexivity].
Qed.

Lemma legacy_all_ignores_surplus_fields_witness :
  Legacy.convert_all_to_bristol_data "12,0,1550.12,3.4,junk,"
  = Legacy.convert_all_to_bristol_data "12,0,1550.12,3.4".
Proof.
  apply (legacy_all_ignores_surplus_fields "12" "0" "1550.12" "3.4" "junk,");
    reflexivity.
Defined.

Lemma unit_letters_no_comma (p : ascii -> bool) (l : string) :
  p ","%char = false -> all_chars p l = true -> mem_char "," l = false.
Proof.
  intros Hp Hl. apply mem_char_none. revert Hl. apply all_chars_impl.
  intros c Hc. destruct (Ascii.eqb_spec "," c) as [<-|]; [congruence | reflexivity].
Qed.

(** X22.  The older environment parser takes unit letters off both ends of each
    field, in any number and order, and asks for none; what is left goes to
    [float], which also skips blanks around the number. *)
Theorem legacy_environment_strips_unit_letters
  (l1 t_tok r1 l2 p_tok r2 : string) (t p : spec_float) :
  all_chars is_celsius l1 = true -> all_chars is_celsius r1 = true ->
  all_chars is_mmhg l2 = true -> all_chars is_mmhg r2 = true ->
  trimmed is_celsius t_tok = true -> mem_char "," t_tok = false ->
  trimmed is_mmhg p_tok = true -> mem_char "," p_tok = false ->
  py_float t_tok = Ok t -> py_float p_tok = Ok p ->
  Legacy.convert_environment_to_environment_data
    ((l1 ++ t_tok ++ r1) ++ "," ++ (l2 ++ p_tok ++ r2))
  = Ok (mkEnvironment t p).
Proof.
  intros Hl1 Hr1 Hl2 Hr2 Ht Htc Hp Hpc Hft Hfp.
  assert (HA : mem_char "," (l1 ++ t_tok ++ r1) = false).
  { rewrite !mem_char_app, Htc, (unit_letters_no_comma is_celsius l1 eq_refl Hl1),
      (unit_letters_no_comma is_celsius r1 eq_refl Hr1). reflexivity. }
  assert (HB : mem_char "," (l2 ++ p_tok ++ r2) = false).
  { rewrite !mem_char_app, Hpc, (unit_letters_no_comma is_mmhg l2 eq_refl Hl2),
      (unit_letters_no_comma is_mmhg r2 eq_refl Hr2). reflexivity. }
  unfold Legacy.convert_environment_to_environment_data.
  change ("," ++ (l2 ++ p_tok ++ r2)) with (String "," (l2 ++ p_tok ++ r2)).
  rewrite (split_sep_found "," _ _ HA), (split_sep_missing "," _ HB).
  change (strip_chars "C" (l1 ++ t_tok ++ r1))
    with (rstrip_by is_celsius (lstrip_by is_celsius (l1 ++ t_tok ++ r1))).
  rewrite (strip_by_wrapped is_celsius l1 t_tok r1 Hl1 Hr1 Ht), Hft. cbn [bind].
  change (strip_chars "MMHG" (l2 ++ p_tok ++ r2))
    with (rstrip_by is_mmhg (lstrip_by is_mmhg (l2 ++ p_tok ++ r2))).
  rewrite (strip_by_wrapped is_mmhg l2 p_tok r2 Hl2 Hr2 Hp), Hfp. reflexivity.
Qed.

Lemma legacy_environment_strips_unit_letters_witness :
  Legacy.convert_environment_to_environment_data "25.4 C, 755.2 GHMM"
  = Ok (mkEnvironment (S754_finite false 7149464408450662 (-48))
                      (S754_finite false 6642809450371482 (-43))).
Proof.
  apply (legacy_environment_strips_unit_letters "" "25.4 " "C" "" " 755.2 " "GHMM");
    reflexivity.
Defined.

End LegacyProps.

(** ** Instances *)

Module Instances.

Import PyStr PyStrProps ErrorCodes Registers RegistersProps RegistersRepr Conversion
  Drain RegistersMore ReprProps ParsersMore.

Local Open Scope string_scope.
Local Open Scope Z_scope.

Lemma get_set_bits_masks_value_witness :
  get_set_bits (mkBits (Z.land 300 (Z.shiftl 1 8 - 1)) EventStatusBits 8 None)
  = get_set_bits (mkBits 300 EventStatusBits 8 None).
Proof. apply (get_set_bits_masks_value 300 EventStatusBits 8 None). lia. Defined.

Lemma get_bit_is_a_bit_witness :
  (exists b, get_bit (EventStatusRegister 255) 9 = Ok b /\ (b = 0 \/ b = 1) /\
             (0 <= bits_value (EventStatusRegister 255)
              < 2 ^ bits_size (EventStatusRegister 255) ->
              bits_size (EventStatusRegister 255) <= 9 -> b = 0)) /\
  get_bit (EventStatusRegister 255) (-1) = Raise (ValueError "negative shift count").
Proof.
  split.
  - apply (proj1 (get_bit_is_a_bit (EventStatusRegister 255) 9)). lia.
  - apply (proj2 (get_bit_is_a_bit (EventStatusRegister 255) (-1))). lia.
Defined.

Lemma parse_system_error_message_unquoted_witness :
  trimmed is_quote " x " = true /\
  mem_char "," ("7," ++ quoted " x ") = true /\
  py_int (strip (fst (fst (partition "," ("7," ++ quoted " x "))))) = Ok 7.
Proof.
  apply (parse_system_error_message_unquoted ("7," ++ quoted " x ") 7 " x ").
  reflexivity.
Defined.

Lemma set_bit_last_write_wins_witness :
  (let* s1 := set_bit (EventStatusEnableRegister 5) 4 0 in set_bit s1 4 1)
  = set_bit (EventStatusEnableRegister 5) 4 1.
Proof.
  apply (set_bit_last_write_wins (EventStatusEnableRegister 5) 4 1 0);
    [lia | now right | now left].
Defined.

Lemma set_bit_commutes_witness :
  (let* s1 := set_bit (EventStatusEnableRegister 5) 4 1 in set_bit s1 2 0)
  = (let* s1 := set_bit (EventStatusEnableRegister 5) 2 0 in set_bit s1 4 1).
Proof.
  apply (set_bit_commutes (EventStatusEnableRegister 5) 4 2 1 0);
    [lia | lia | lia | now right | now left].
Defined.

Lemma set_bit_keeps_width_witness :
  0 <= bits_value (mkBits 21 EventStatusEnableBits 8 (fault_bits (EventStatusEnableRegister 5)))
  < 2 ^ bits_size (mkBits 21 EventStatusEnableBits 8 (fault_bits (EventStatusEnableRegister 5))).
Proof.
  apply (set_bit_keeps_width (EventStatusEnableRegister 5) _ 4 1);
    [cbn; lia | cbn; lia | reflexivity].
Defined.

Lemma get_set_bits_after_set_bit_witness :
  In 4 (get_set_bits (mkBits 21 EventStatusEnableBits 8
                        (fault_bits (EventStatusEnableRegister 5)))) <->
  (4 = 4 /\ 1 = 1 /\ 4 < bits_size (EventStatusEnableRegister 5))
  \/ (4 <> 4 /\ In 4 (get_set_bits (EventStatusEnableRegister 5))).
Proof.
  apply (get_set_bits_after_set_bit (EventStatusEnableRegister 5) _ 4 1);
    [lia | reflexivity].
Defined.

Lemma repr_of_the_registers_witness :
  Bits_repr (EventStatusRegister 5)
  = Ok "EventStatuRegister(OPERATION_COMPLETE, QUERY_ERROR)".
Proof.
  apply (proj1 (proj2 (repr_of_the_registers 5 ["OPERATION_COMPLETE"; "QUERY_ERROR"]))).
  reflexivity.
Defined.

Lemma get_value_agrees_with_names_witness :
  In "COMMAND_ERROR" ["QUERY_ERROR"; "COMMAND_ERROR"] <->
  get_value (EventStatusRegister 36) (PyMember (Member "COMMAND_ERROR" 5)) = Ok 1.
Proof.
  apply (get_value_agrees_with_names (EventStatusRegister 36) (Member "COMMAND_ERROR" 5)).
  - repeat constructor; cbn; intuition discriminate.
  - repeat constructor; cbn; intuition discriminate.
  - right; left; reflexivity.
  - cbn; lia.
  - reflexivity.
Defined.


Lemma parsers_raise_parse_errors_only_witness :
  BristolParseError "Invalid environment response format: 'bad_data'"
  = BristolParseError ("Invalid environment response format: " ++ repr "bad_data").
Proof.
  apply (proj1 (parsers_raise_parse_errors_only "bad_data"
                  (BristolParseError "Invalid environment response format: 'bad_data'"))).
  reflexivity.
Defined.

Lemma parsers_need_their_commas_witness :
  count_char "," "12,0,1550.12,3.4" = 3%nat.
Proof.
  apply (proj2 (parsers_need_their_commas "12,0,1550.12,3.4")
           (mkWavemeterData 12 0 (S754_finite false 6817499857792532 (-42))
                            (S754_finite false 7656119366529843 (-51)))).
  reflexivity.
Defined.

Lemma convert_all_reads_four_fields_witness :
  convert_all_to_bristol_data (" 12" ++ "," ++ "0 " ++ "," ++ "1550.12" ++ "," ++ " 3.4")
  = Ok (mkWavemeterData 12 0 (S754_finite false 6817499857792532 (-42))
                        (S754_finite false 7656119366529843 (-51))).
Proof.
  apply (convert_all_reads_four_fields " 12" "0 " "1550.12" " 3.4"); try reflexivity.
  repeat split.
Defined.

Lemma system_error_readers_agree_witness :
  convert_system_error ("-101, " ++ quoted "Invalid character") = Ok INVALID_CHARACTER /\
  read_entry ("-101, " ++ quoted "Invalid character")
  = Ok (INVALID_CHARACTER, "Invalid character").
Proof.
  apply (system_error_readers_agree ("-101, " ++ quoted "Invalid character")
           (-101) "Invalid character").
  reflexivity.
Defined.

Lemma convert_system_error_needs_no_comma_witness :
  (convert_system_error "-222" = Ok DATA_OUT_OF_RANGE <->
   convert_system_error ("-222" ++ String "," " anything") = Ok DATA_OUT_OF_RANGE) /\
  parse_system_error "-222"
  = Raise (BristolParseError
             ("Invalid SYSTEM:ERROR response format (missing comma): " ++ repr "-222")).
Proof.
  apply (convert_system_error_needs_no_comma "-222" " anything" DATA_OUT_OF_RANGE).
  reflexivity.
Defined.


End Instances.
